(** * MME tag-maker service: edge learning and tag tiering

  A shallow embedding of

  - [app/jobs/edge_learning.py]  (class [EdgeLearningJob]), and
  - [app/services/tiering.py]    (hotness scoring and the rebalancing sweep),

  together with the properties the specification states about them.

  Python [float] values are embedded as exact rationals ([Q]).  What is
  proved of them below are equalities of formulas, clamps, comparisons
  and order, which do not depend on how the arithmetic rounds;
  [Binary64] has the update rule on binary64, the arithmetic of the
  interpreter, and [Binary64Examples] evaluates it where rounding
  decides the outcome.  Python [int] values are [Z]; [dict]s whose
  iteration order matters are insertion-ordered association lists; the
  [tag_edges] collection is a finite map keyed by [(orgId, tag)]. *)

From Stdlib Require Import QArith Qminmax Lqa ZArith Lia List Ascii String.
From Stdlib Require PrimFloat.
From stdpp Require Import gmap strings list sorting.

(** ** Python builtins used by the code *)

Module Py.

Local Open Scope Q_scope.

(** [a < b]. *)
Definition ltb (a b : Q) : bool := negb (Qle_bool b a).

(** [a >= b]. *)
Definition geb (a b : Q) : bool := Qle_bool b a.

(** Two-argument [min(a, b)]: the first argument is kept unless the
    second is strictly smaller. *)
Definition min (a b : Q) : Q := if ltb b a then b else a.

(** Two-argument [max(a, b)]: the first argument is kept unless the
    second is strictly greater. *)
Definition max (a b : Q) : Q := if ltb a b then b else a.

End Py.

(** ** [app/jobs/edge_learning.py] *)

Module EdgeLearning.

Local Open Scope Q_scope.

(** The configuration [EdgeLearningJob.__init__] reads from the
    environment. *)
Record Config := {
  eta : Q;                 (* MME_LEARN_ETA, default 0.05 *)
  r : Q;                   (* MME_LEARN_R, default 0.03 *)
  d : Q;                   (* MME_LEARN_D, default 0.01 *)
  w_max : Q;               (* MME_LEARN_WMAX, default 1.0 *)
  window_hours : Z;        (* MME_LEARN_WINDOW_HOURS, default 24 *)
  max_edges_per_tag : Z    (* MME_MAX_EDGES_PER_TAG, default 32 *)
}.

Definition default_config : Config :=
  {| eta := 0.05; r := 0.03; d := 0.01; w_max := 1.0;
     window_hours := 24; max_edges_per_tag := 32 |}.

(** The configuration of the integration tests ([app/tests/conftest.py]). *)
Definition test_config : Config :=
  {| eta := 0.1; r := 0.05; d := 0.02; w_max := 1.0;
     window_hours := 24; max_edges_per_tag := 3 |}.

(** [_clip_weight]: [max(0.0, min(weight, self.w_max))]. *)
Definition _clip_weight (self : Config) (weight : Q) : Q :=
  Py.max 0 (Py.min weight (w_max self)).

(** [_update_edge_weight]. *)
Definition _update_edge_weight (self : Config) (current_weight : Q)
    (accepted : bool) : Q :=
  let reward := if accepted then r self else - d self in
  let new_weight := current_weight + reward in
  let clipped_weight := _clip_weight self new_weight in
  let updated_weight :=
    (1 - eta self) * current_weight + eta self * clipped_weight in
  _clip_weight self updated_weight.

(** The update rule as the specification words it: [clip(x, lo, hi)] is
    the mathematical clamp [max(lo, min(x, hi))]. *)
Definition spec_clip (x lo hi : Q) : Q := Qmax lo (Qmin x hi).

Definition spec_new_weight (eta r d wMax currentWeight : Q)
    (accepted : bool) : Q :=
  let reward := if accepted then r else - d in
  let target := spec_clip (currentWeight + reward) 0 wMax in
  spec_clip ((1 - eta) * currentWeight + eta * target) 0 wMax.


(** *** Documents *)

(** One entry of the [edges] array of a [tag_edges] document. *)
Record Edge := {
  to : string;
  w : Q;
  facetSrc : string;
  facetDst : string;
  ts : Z
}.

(** A [pack_events] document.  [accepted] and [tags] are read with
  [event.get(key, default)]: [None] stands for an absent key. *)
Record PackEvent := {
  orgId : string;
  projectId : string;
  packId : string;
  accepted : option bool;
  tags : option (list string);
  itemIds : list string;
  event_ts : Z
}.

(** The [tag_edges] collection: the [edges] array of the document of each
  [(orgId, tag)]. *)
Abbreviation TagEdges := (gmap (string * string) (list Edge)).

(** The dictionary returned by [run]. *)
Record Summary := {
  updated : Z;
  pruned : Z;
  duration_seconds : Q
}.

(** *** Neighbour maps: [Dict[str, float]], in insertion order *)

Abbreviation Neighbours := (list (string * Q)).

(** [d.get(key, default)]. *)
Fixpoint dict_get (edges : Neighbours) (key : string) (default : Q) : Q :=
  match edges with
  | [] => default
  | (k, v) :: rest => if String.eqb k key then v else dict_get rest key default
  end.

(** [d[key] = value]: an existing key keeps its position, a new key goes
  last. *)
Fixpoint dict_set (edges : Neighbours) (key : string) (value : Q) : Neighbours :=
  match edges with
  | [] => [(key, value)]
  | (k, v) :: rest =>
      if String.eqb k key then (k, value) :: rest
      else (k, v) :: dict_set rest key value
  end.

(** [sorted(items, key=lambda x: x[1], reverse=True)]: a stable sort, the
  heaviest entry first; entries of equal weight keep their order. *)
Fixpoint insert_desc (x : string * Q) (l : Neighbours) : Neighbours :=
  match l with
  | [] => [x]
  | y :: rest =>
      if Py.ltb (snd x) (snd y) then y :: insert_desc x rest else x :: y :: rest
  end.

Definition sorted_desc (items : Neighbours) : Neighbours :=
  foldr insert_desc [] items.

(** The slice [l[:m]]: a negative bound counts from the end. *)
Definition slice_to {A} (l : list A) (m : Z) : list A :=
  if (0 <=? m)%Z then take (Z.to_nat m) l
  else take (Z.to_nat (Z.of_nat (length l) + m)) l.

(** *** The job *)

(** [_build_tag_pairs]: the pairs [(tags[i], tags[j])] for [i < j], in the
  order of the two nested loops. *)
Fixpoint _build_tag_pairs (tags : list string) : list (string * string) :=
  match tags with
  | [] => []
  | t :: rest => map (pair t) rest ++ _build_tag_pairs rest
  end.

Section Job.

(** The job object, and the wall clock: [time_time] is what
  [time.time()] and [datetime.now()] read during a pass (in seconds,
  for a process whose local time is UTC), [total_duration] the duration
  [run] measures. *)
Variable self : Config.
Variable time_time : Z.
Variable total_duration : Q.

(** [_get_recent_pack_events], over the [pack_events] collection, with
  the cutoff [datetime.now() - timedelta(hours=hours)] as a process in
  UTC computes it while the difference stays in the range of
  [datetime]; [Handlers] below has the cutoff as whatever the
  interpreter computes, or raises. *)
Definition _get_recent_pack_events (pack_events : list PackEvent)
    (org_id : string) (hours : option Z) : list PackEvent :=
  let hours := default (window_hours self) hours in
  let cutoff_time := (time_time - hours * 3600)%Z in
  List.filter
    (fun event =>
       String.eqb (orgId event) org_id && (cutoff_time <=? event_ts event)%Z)
    pack_events.

(** [_get_current_edges]. *)
Definition _get_current_edges (db : TagEdges) (org_id tag : string)
    : Neighbours :=
  match db !! (org_id, tag) with
  | None => []
  | Some doc_edges =>
      fold_left (fun edges edge => dict_set edges (to edge) (w edge))
        doc_edges []
  end.

(** [_upsert_edges]: returns the collection after the write and
  [len(edge_list)]. *)
Definition _upsert_edges (db : TagEdges) (org_id tag : string)
    (edges : Neighbours) : TagEdges * Z :=
  let sorted_edges := sorted_desc edges in
  let top_edges := slice_to sorted_edges (max_edges_per_tag self) in
  let current_time := time_time in
  let edge_list :=
    map (fun '(to_tag, weight) =>
           {| to := to_tag; w := weight; facetSrc := ""; facetDst := "";
              ts := current_time |})
      top_edges in
  (<[(org_id, tag) := edge_list]> db, Z.of_nat (length edge_list)).

(** One direction of a pair (the block [run] executes twice per pair):
  read the neighbours of [src], update the weight towards [dst], write
  the document back. *)
Definition update_direction (db : TagEdges) (org src dst : string)
    (accepted : bool) : TagEdges :=
  let current_edges := _get_current_edges db org src in
  let current_weight := dict_get current_edges dst 0 in
  let new_weight := _update_edge_weight self current_weight accepted in
  let current_edges := dict_set current_edges dst new_weight in
  fst (_upsert_edges db org src current_edges).

(** Body of [for tag1, tag2 in pairs]. *)
Definition run_pair (org : string) (accepted : bool)
    (st : TagEdges * Z) (tag_pair : string * string) : TagEdges * Z :=
  let '(db, org_edges_updated) := st in
  let '(tag1, tag2) := tag_pair in
  let db := update_direction db org tag1 tag2 accepted in
  let org_edges_updated := (org_edges_updated + 1)%Z in
  let db := update_direction db org tag2 tag1 accepted in
  (db, (org_edges_updated + 1)%Z).

(** The pairs [run] processes for one event. *)
Definition event_pairs (event : PackEvent) : list (string * string) :=
  let tags := default [] (tags event) in
  if (length tags <? 2)%nat then [] else _build_tag_pairs tags.

(** Body of [for event in events]. *)
Definition run_event (org : string) (st : TagEdges * Z) (event : PackEvent)
    : TagEdges * Z :=
  let tags := default [] (tags event) in
  let accepted := default false (accepted event) in
  if (length tags <? 2)%nat then st
  else
    let pairs := _build_tag_pairs tags in
    fold_left (run_pair org accepted) pairs st.

(** Body of [for org in orgs] when nothing in it raises; the state is
  the collection with [total_updated] and [total_pruned].  [Handlers]
  below has the body with the [except Exception] handler around it,
  which drops the count of an organisation whose processing raises. *)
Definition run_org (pack_events : list PackEvent) (hours : option Z)
    (st : TagEdges * Z * Z) (org : string) : TagEdges * Z * Z :=
  let '(db, total_updated, total_pruned) := st in
  let events := _get_recent_pack_events pack_events org hours in
  match events with
  | [] => st
  | _ =>
      let '(db, org_edges_updated) :=
        fold_left (run_event org) events (db, 0%Z) in
      (db, (total_updated + org_edges_updated)%Z, total_pruned)
  end.

(** The organisations [run] visits: [[org_id]] when [org_id] is given (and
  not empty), otherwise [distinct('orgId')] over the events. *)
Definition select_orgs (pack_events : list PackEvent)
    (org_id : option string) : list string :=
  match org_id with
  | Some org =>
      if String.eqb org "" then remove_dups (orgId <$> pack_events)
      else [org]
  | None => remove_dups (orgId <$> pack_events)
  end.

(** [run]. *)
Definition run (pack_events : list PackEvent) (db : TagEdges)
    (org_id : option string) (hours : option Z) : TagEdges * Summary :=
  let orgs := select_orgs pack_events org_id in
  let total_updated := 0%Z in
  let total_pruned := 0%Z in
  let '(db, total_updated, total_pruned) :=
    fold_left (run_org pack_events hours) orgs
      (db, total_updated, total_pruned) in
  (db, {| updated := total_updated; pruned := total_pruned;
          duration_seconds := total_duration |}).

End Job.

End EdgeLearning.

(** ** The update rule on binary64

  The same two functions over IEEE 754 binary64, the format of a Python
  [float], to evaluate the update on given numbers exactly as the
  interpreter does. *)

Module Binary64.

Import PrimFloat.
Local Open Scope float_scope.
#[local] Set Warnings "-inexact-float".

Definition min (a b : float) : float := if ltb b a then b else a.

Definition max (a b : float) : float := if ltb a b then b else a.

Record Config := {
  eta : float;
  r : float;
  d : float;
  w_max : float
}.

Definition _clip_weight (self : Config) (weight : float) : float :=
  max 0 (min weight (w_max self)).

Definition _update_edge_weight (self : Config) (current_weight : float)
    (accepted : bool) : float :=
  let reward := if accepted then r self else - d self in
  let new_weight := current_weight + reward in
  let clipped_weight := _clip_weight self new_weight in
  let updated_weight :=
    (1 - eta self) * current_weight + eta self * clipped_weight in
  _clip_weight self updated_weight.

Definition test_config : Config :=
  {| eta := 0.1; r := 0.05; d := 0.02; w_max := 1.0 |}.

Definition default_config : Config :=
  {| eta := 0.05; r := 0.03; d := 0.01; w_max := 1.0 |}.

Definition frozen_config : Config :=
  {| eta := 0; r := 0.05; d := 0.02; w_max := 1.0 |}.

(** The test configuration with a penalty below the resolution of the
  weights. *)
Definition tiny_penalty_config : Config :=
  {| eta := 0.1; r := 0.05; d := 1e-20; w_max := 1.0 |}.

End Binary64.

(** ** [app/services/tiering.py] *)

Module Tiering.

Local Open Scope Z_scope.

(** *** Python values and exceptions *)

(** A [float]: finite, not-a-number, or an infinity. *)
Inductive pyfloat :=
  | Finite (q : Q)
  | NaN
  | Inf (negative : bool).

(** The values a field of a tag record can hold ([PyDatetime] carries
  the naive wall-clock time in seconds; [PyOther] is any other object). *)
Inductive pyvalue :=
  | PyNone
  | PyBool (b : bool)
  | PyInt (n : Z)
  | PyFloat (x : pyfloat)
  | PyStr (s : string)
  | PyDatetime (t : Z)
  | PyOther.

Inductive pyexn :=
  | ValueError
  | TypeError
  | OverflowError
  | ZeroDivisionError.

(** A computation that returns or raises. *)
Inductive result (A : Type) :=
  | Ok (a : A)
  | Raise (e : pyexn).
Arguments Ok {A} a.
Arguments Raise {A} e.

Definition bind {A B} (m : result A) (k : A -> result B) : result B :=
  match m with
  | Ok a => k a
  | Raise e => Raise e
  end.

Notation "x <- m ;; k" := (bind m (fun x => k))
  (at level 100, m at next level, right associativity).

(** A [dict] with string keys, and [d.get(key)]. *)
Abbreviation pydict := (list (string * pyvalue)).

Fixpoint get (fields : pydict) (key : string) : pyvalue :=
  match fields with
  | [] => PyNone
  | (k, v) :: rest => if String.eqb k key then v else get rest key
  end.

(** Truth value of an object, as [not value] tests it. *)
Definition truthy (value : pyvalue) : bool :=
  match value with
  | PyNone => false
  | PyBool b => b
  | PyInt n => negb (n =? 0)
  | PyFloat (Finite q) => negb (Qeq_bool q 0)
  | PyFloat _ => true
  | PyStr s => negb (String.eqb s "")
  | PyDatetime _ => true
  | PyOther => true
  end.

(** [s.replace("Z", "")]. *)
Fixpoint remove_Z (s : string) : string :=
  match s with
  | EmptyString => EmptyString
  | String c rest =>
      if Ascii.eqb c "Z"%char then remove_Z rest
      else String c (remove_Z rest)
  end.

(** [(a - b).days]: whole days, rounded down. *)
Definition days_between (a b : Z) : Z := (a - b) / 86400.

(** A record of the tag-metrics view. *)
Record TagRecord := {
  tag : option string;
  metrics : pydict;
  meta : pydict
}.

(** What a sweep has done so far: its two counters and the tier updates
  it has issued. *)
Record Sweep := {
  total_processed : Z;
  total_rebalanced : Z;
  tier_updates : list (string * Z)
}.

(** The least magnitude of an [int] that has no [float]: it would round
  to [2 ^ 1024]. *)
Definition float_overflow : Z := 2 ^ 1024 - 2 ^ 970.

(** The conversion of an [int] operand of a [float] operation:
  [OverflowError] ("int too large to convert to float") beyond the
  range of binary64. *)
Definition float_of_int (n : Z) : result Q :=
  if float_overflow <=? Z.abs n then Raise OverflowError
  else Ok (inject_Z n).

(** [determine_tier]. *)
Definition determine_tier (hotness_score : Q) : Z :=
  if Py.geb hotness_score 5.0 then 1
  else if Py.geb hotness_score 1.0 then 2
  else 3.

Section Service.

(** The library functions and the surroundings the module calls:
  [datetime.utcnow()], [datetime.fromisoformat] and [int] on strings
  ([None] when they raise [ValueError]), [math.log] on positive
  integers, [round(x, 3)], the outcome of [db_service.update_tag_tier],
  and the aggregated tag-metrics view of the database. *)
Variable utcnow : Z.
Variable fromisoformat : string -> option Z.
Variable int_of_str : string -> option Z.
Variable ln : Z -> Q.
Variable round3 : Q -> Q.
Variable update_tag_tier : string -> Z -> bool.
Variable tag_view : list TagRecord.

(** [math.log(x)] for an integer [x]. *)
Definition math_log (x : Z) : result Q :=
  if x <=? 0 then Raise ValueError else Ok (ln x).

(** [int(value)] for a string or a float. *)
Definition py_int (value : pyvalue) : result Z :=
  match value with
  | PyStr s =>
      match int_of_str s with
      | Some n => Ok n
      | None => Raise ValueError
      end
  | PyFloat (Finite q) => Ok (Z.quot (Qnum q) (Zpos (Qden q)))
  | PyFloat NaN => Raise ValueError
  | PyFloat (Inf _) => Raise OverflowError
  | PyInt n => Ok n
  | PyBool b => Ok (Z.b2z b)
  | _ => Raise TypeError
  end.

(** [compute_hotness_score].  The product [use_count * recency_factor]
  converts the [int] to a [float] first, which can raise. *)
Definition compute_hotness_score (use_count : Z)
    (created_at last_used_at : Z) (last_promoted_at : option Z) : result Q :=
  let now := utcnow in
  let age_days := days_between now created_at + 1 in
  age_penalty <- math_log (age_days + 1) ;;
  let days_since_use := days_between now last_used_at in
  recency_factor <-
    (if days_since_use + 1 =? 0 then Raise ZeroDivisionError
     else Ok (1 / inject_Z (days_since_use + 1))%Q) ;;
  let promotion_boost :=
    match last_promoted_at with
    | Some promoted =>
        if days_between now promoted <? 7 then 1.5%Q else 1.0%Q
    | None => 1.0%Q
    end in
  use_count <- float_of_int use_count ;;
  if Qeq_bool age_penalty 0 then Raise ZeroDivisionError
  else
    Ok (round3
          (use_count * recency_factor * promotion_boost / age_penalty)%Q).

(** [safe_parse_datetime]: the [try] block and its handler. *)
Definition safe_parse_datetime (date_value : pyvalue) : option Z :=
  if negb (truthy date_value) then None
  else
    match date_value with
    | PyStr s =>
        match fromisoformat (remove_Z s) with
        | Some t => Some t
        | None => None                       (* except Exception *)
        end
    | PyDatetime t => Some t
    | _ => None
    end.

(** [safe_get_int]: the [try] block, then
  [except (ValueError, TypeError): return default]. *)
Definition safe_get_int (value : pyvalue) (default : Z) : result Z :=
  let attempt :=
    match value with
    | PyInt n => Ok n
    | PyBool b => Ok (Z.b2z b)
    | PyStr _ => py_int value
    | PyFloat _ => py_int value
    | _ => Ok default
    end in
  match attempt with
  | Raise ValueError | Raise TypeError => Ok default
  | other => other
  end.

(** [get_tags_for_rebalancing]: one page of a view that stays as it is
  and is always served; [Paging] below has the pages as they are
  fetched, one of which may come back empty because the fetch failed. *)
Definition get_tags_for_rebalancing (page limit : nat) : list TagRecord :=
  take limit (drop (page * limit) tag_view).

(** [post_tier_update], recording the update it issues. *)
Definition post_tier_update (st : Sweep) (tag : string) (new_tier : Z)
    : Sweep * bool :=
  ({| total_processed := total_processed st;
      total_rebalanced := total_rebalanced st;
      tier_updates := tier_updates st ++ [(tag, new_tier)] |},
   update_tag_tier tag new_tier).

(** The [try] block of the loop over the records of a page. *)
Definition rebalance_tag_body (st : Sweep) (tag_data : TagRecord)
    : result Sweep :=
  let tag_name := default "unknown" (tag tag_data) in
  let metrics := metrics tag_data in
  let meta := meta tag_data in
  let created_at := safe_parse_datetime (get metrics "createdAt") in
  let last_used_at := safe_parse_datetime (get metrics "lastUsedAt") in
  let last_promoted_at := safe_parse_datetime (get metrics "lastPromotedAt") in
  use_count <- safe_get_int (get metrics "useCount") 1 ;;
  match created_at, last_used_at with
  | Some created_at, Some last_used_at =>
      hotness <-
        compute_hotness_score use_count created_at last_used_at
          last_promoted_at ;;
      let new_tier := determine_tier hotness in
      current_tier <- safe_get_int (get meta "tier") 2 ;;
      let st :=
        if new_tier =? current_tier then st
        else
          let '(st, success) := post_tier_update st tag_name new_tier in
          if success then
            {| total_processed := total_processed st;
               total_rebalanced := total_rebalanced st + 1;
               tier_updates := tier_updates st |}
          else st in
      Ok {| total_processed := total_processed st + 1;
            total_rebalanced := total_rebalanced st;
            tier_updates := tier_updates st |}
  | _, _ => Ok st                            (* continue *)
  end.

(** One record: the [try] block, and [except Exception] that logs and
  goes on to the next record. *)
Definition rebalance_tag (st : Sweep) (tag_data : TagRecord) : Sweep :=
  match rebalance_tag_body st tag_data with
  | Ok st => st
  | Raise _ => st
  end.

(** The [while True] loop over the pages, from page [page]; [None] when
  [fuel] pages did not reach the empty page. *)
Fixpoint sweep_pages (fuel : nat) (page : nat) (st : Sweep) : option Sweep :=
  match fuel with
  | O => None
  | S fuel =>
      let limit := 100%nat in
      match get_tags_for_rebalancing page limit with
      | [] => Some st
      | tags => sweep_pages fuel (S page) (fold_left rebalance_tag tags st)
      end
  end.

(** [rebalance_all_tags], given what [db_service.is_connected()]
  answers: the sweep state it logs at the end. *)
Definition rebalance_all_tags (is_connected : bool) : option Sweep :=
  let start :=
    {| total_processed := 0; total_rebalanced := 0; tier_updates := [] |} in
  if negb is_connected then Some start
  else sweep_pages (S (length tag_view)) 0 start.

End Service.

End Tiering.

(** ** [EdgeLearningJob.run] with its exception handler

  [EdgeLearning.run] is the pass in which no operation raises.  Here the
  two operations of the loop body that raise on data the job accepts are
  modelled as such, under the handler [except Exception: continue] that
  surrounds the body of [for org in orgs]: the computation of the
  cutoff time, and [len(tags)] for an event whose [tags] field holds
  [null]. *)

Module Handlers.

Import EdgeLearning.
Local Open Scope Z_scope.

(** A [pack_events] document as stored: [tags_null] tells that its
  [tags] field is present and holds [null], a value without a length
  (the [tags] of [event] are then not looked at). *)
Record StoredEvent := {
  event : PackEvent;
  tags_null : bool
}.

Section Job.

Variable self : Config.
Variable time_time : Z.
Variable total_duration : Q.

(** [int((datetime.now() - timedelta(hours=hours)).timestamp())] as the
  interpreter evaluates it for [hours], in the local time zone of the
  process, or the exception it raises ([OverflowError] when the
  difference leaves the range of [datetime]). *)
Variable cutoff : Z -> Tiering.result Z.

(** [_get_recent_pack_events]. *)
Definition _get_recent_pack_events (pack_events : list StoredEvent)
    (org_id : string) (hours : option Z)
    : Tiering.result (list StoredEvent) :=
  let hours := default (window_hours self) hours in
  match cutoff hours with
  | Tiering.Raise e => Tiering.Raise e
  | Tiering.Ok cutoff_time =>
      Tiering.Ok
        (List.filter
           (fun doc =>
              String.eqb (orgId (event doc)) org_id
              && (cutoff_time <=? event_ts (event doc)))
           pack_events)
  end.

(** The loop [for event in events], inside the [try] block: the
  collection it has reached, with either the count of the organisation
  or the exception that ended it ([len(tags)] raises [TypeError] when
  [tags] is [null]). *)
Fixpoint run_events (org : string) (events : list StoredEvent)
    (st : TagEdges * Z) : TagEdges * Tiering.result Z :=
  match events with
  | [] => (st.1, Tiering.Ok st.2)
  | doc :: rest =>
      if tags_null doc then (st.1, Tiering.Raise Tiering.TypeError)
      else run_events org rest (run_event self time_time org st (event doc))
  end.

(** Body of [for org in orgs], with its handler: an exception ends the
  organisation before [total_updated += org_edges_updated]; what has
  been written stays written. *)
Definition run_org (pack_events : list StoredEvent) (hours : option Z)
    (st : TagEdges * Z * Z) (org : string) : TagEdges * Z * Z :=
  let '(db, total_updated, total_pruned) := st in
  match _get_recent_pack_events pack_events org hours with
  | Tiering.Raise _ => st                       (* except Exception *)
  | Tiering.Ok [] => st                         (* if not events *)
  | Tiering.Ok events =>
      match run_events org events (db, 0) with
      | (db, Tiering.Ok org_edges_updated) =>
          (db, total_updated + org_edges_updated, total_pruned)
      | (db, Tiering.Raise _) =>
          (db, total_updated, total_pruned)     (* except Exception *)
      end
  end.

(** [run]. *)
Definition run (pack_events : list StoredEvent) (db : TagEdges)
    (org_id : option string) (hours : option Z) : TagEdges * Summary :=
  let orgs := select_orgs (event <$> pack_events) org_id in
  let total_updated := 0 in
  let total_pruned := 0 in
  let '(db, total_updated, total_pruned) :=
    fold_left (run_org pack_events hours) orgs
      (db, total_updated, total_pruned) in
  (db, {| updated := total_updated; pruned := total_pruned;
          duration_seconds := total_duration |}).

End Job.

End Handlers.

(** ** [rebalance_all_tags] over the pages as they are fetched

  [Tiering.rebalance_all_tags] pages through a view that does not
  change and is always served.  Here each page is what
  [get_tags_for_rebalancing(page, 100)] returns when the sweep asks for
  it: the page of the view at that moment, or the empty list when
  [db_service] could not run the aggregation (it answers [[]] on any
  ping or operation error). *)

Module Paging.

Import Tiering.
Local Open Scope Z_scope.

Section Service.

Variable utcnow : Z.
Variable fromisoformat : string -> option Z.
Variable int_of_str : string -> option Z.
Variable ln : Z -> Q.
Variable round3 : Q -> Q.
Variable update_tag_tier : string -> Z -> bool.

(** What the fetch of each page returns. *)
Variable fetch : nat -> list TagRecord.

(** The [while True] loop from page [page]; [None] when [fuel] pages
  did not reach an empty page. *)
Fixpoint sweep_pages (fuel : nat) (page : nat) (st : Sweep) : option Sweep :=
  match fuel with
  | O => None
  | S fuel =>
      match fetch page with
      | [] => Some st
      | tags =>
          sweep_pages fuel (S page)
            (fold_left
               (rebalance_tag utcnow fromisoformat int_of_str ln round3
                  update_tag_tier)
               tags st)
      end
  end.

(** [rebalance_all_tags], given what [db_service.is_connected()]
  answers. *)
Definition rebalance_all_tags (fuel : nat) (is_connected : bool)
    : option Sweep :=
  let start :=
    {| total_processed := 0; total_rebalanced := 0; tier_updates := [] |} in
  if negb is_connected then Some start
  else sweep_pages fuel 0 start.

End Service.

End Paging.

(** ** [app/services/database.py]: the connection of [DatabaseService] *)

Module Database.

Local Open Scope Q_scope.

(** [_connection_state]: ["disconnected"], ["connecting"], ["connected"]
  or ["error"]. *)
Inductive ConnectionState :=
  | StateDisconnected
  | StateConnecting
  | StateConnected
  | StateError.

(** Why [_connect] failed: which of its three handlers ran. *)
Inductive ConnectFailure :=
  | ServerUnreachable
  | NotPermitted
  | UnexpectedError.

(** What the driver does when the service connects, pings, or runs an
  operation. *)
Inductive ConnectOutcome :=
  | ConnectOk
  | ConnectFails (why : ConnectFailure).

Inductive PingOutcome :=
  | PingOk
  | PingConnectionLost
  | PingOtherError.

Inductive OpOutcome (R : Type) :=
  | OpReturns (result : R)
  | OpConnectionLost
  | OpOtherError.
Arguments OpReturns {R} result.
Arguments OpConnectionLost {R}.
Arguments OpOtherError {R}.

(** The fields of the service the connection logic reads and writes;
  [client] tells whether [self.client] is set. *)
Record DatabaseService := {
  client : bool;
  _connection_state : ConnectionState;
  _last_error : option ConnectFailure;
  _reconnect_attempts : Z;
  _max_reconnect_attempts : Z;
  _connection_health_score : Q;
  _operation_count : Z;
  _error_count : Z
}.

Definition state_is_connected (s : DatabaseService) : bool :=
  match _connection_state s with
  | StateConnected => true
  | _ => false
  end.

Definition set_health (s : DatabaseService) (score : Q) : DatabaseService :=
  {| client := client s;
     _connection_state := _connection_state s;
     _last_error := _last_error s;
     _reconnect_attempts := _reconnect_attempts s;
     _max_reconnect_attempts := _max_reconnect_attempts s;
     _connection_health_score := score;
     _operation_count := _operation_count s;
     _error_count := _error_count s |}.

Definition count_error (s : DatabaseService) : DatabaseService :=
  {| client := client s;
     _connection_state := _connection_state s;
     _last_error := _last_error s;
     _reconnect_attempts := _reconnect_attempts s;
     _max_reconnect_attempts := _max_reconnect_attempts s;
     _connection_health_score := _connection_health_score s;
     _operation_count := _operation_count s;
     _error_count := (_error_count s + 1)%Z |}.

Definition count_operation (s : DatabaseService) : DatabaseService :=
  {| client := client s;
     _connection_state := _connection_state s;
     _last_error := _last_error s;
     _reconnect_attempts := _reconnect_attempts s;
     _max_reconnect_attempts := _max_reconnect_attempts s;
     _connection_health_score := _connection_health_score s;
     _operation_count := (_operation_count s + 1)%Z;
     _error_count := _error_count s |}.

(** [_handle_connection_error]. *)
Definition _handle_connection_error (s : DatabaseService)
    (why : ConnectFailure) : DatabaseService :=
  {| client := false;
     _connection_state := StateError;
     _last_error := Some why;
     _reconnect_attempts := _reconnect_attempts s;
     _max_reconnect_attempts := _max_reconnect_attempts s;
     _connection_health_score := 0.0;
     _operation_count := _operation_count s;
     _error_count := _error_count s |}.

(** [_connect]. *)
Definition _connect (s : DatabaseService) (outcome : ConnectOutcome)
    : DatabaseService * bool :=
  match outcome with
  | ConnectOk =>
      ({| client := true;
          _connection_state := StateConnected;
          _last_error := None;
          _reconnect_attempts := 0;
          _max_reconnect_attempts := _max_reconnect_attempts s;
          _connection_health_score := 1.0;
          _operation_count := _operation_count s;
          _error_count := _error_count s |}, true)
  | ConnectFails why => (_handle_connection_error s why, false)
  end.

(** [_reconnect]. *)
Definition _reconnect (s : DatabaseService) (outcome : ConnectOutcome)
    : DatabaseService * bool :=
  if (_max_reconnect_attempts s <=? _reconnect_attempts s)%Z then (s, false)
  else
    _connect
      {| client := client s;
         _connection_state := _connection_state s;
         _last_error := _last_error s;
         _reconnect_attempts := (_reconnect_attempts s + 1)%Z;
         _max_reconnect_attempts := _max_reconnect_attempts s;
         _connection_health_score := _connection_health_score s;
         _operation_count := _operation_count s;
         _error_count := _error_count s |}
      outcome.

(** [is_connected]: [ping] is what the health check meets, [reconnect]
  what a reconnection would meet.  The health score is kept as an exact
  rational: the test [<= 0.3] is decided on the sums and differences of
  the decimal steps, not on their binary64 roundings. *)
Definition is_connected (s : DatabaseService) (ping : PingOutcome)
    (reconnect : ConnectOutcome) : DatabaseService * bool :=
  if negb (client s) || negb (state_is_connected s) then (s, false)
  else
    match ping with
    | PingOk =>
        (set_health s (Py.min 1.0 (_connection_health_score s + 0.1)), true)
    | PingConnectionLost =>
        let s :=
          set_health s (Py.max 0.0 (_connection_health_score s - 0.3)) in
        if Qle_bool (_connection_health_score s) 0.3
        then _reconnect s reconnect
        else (s, false)
    | PingOtherError =>
        (set_health s (Py.max 0.0 (_connection_health_score s - 0.2)), false)
    end.

(** [_execute_operation]: [None] is the [None] the method returns
  itself. *)
Definition _execute_operation {R} (s : DatabaseService) (ping : PingOutcome)
    (reconnect : ConnectOutcome) (operation : OpOutcome R)
    (reconnect_after : ConnectOutcome) : DatabaseService * option R :=
  let '(s, connected) := is_connected s ping reconnect in
  if negb connected then (count_error s, None)
  else
    let s := count_operation s in
    match operation with
    | OpReturns result =>
        (set_health s (Py.min 1.0 (_connection_health_score s + 0.05)),
         Some result)
    | OpConnectionLost =>
        let s := count_error s in
        let s :=
          set_health s (Py.max 0.0 (_connection_health_score s - 0.2)) in
        ((_reconnect s reconnect_after).1, None)
    | OpOtherError =>
        let s := count_error s in
        (set_health s (Py.max 0.0 (_connection_health_score s - 0.1)), None)
    end.

(** [close]. *)
Definition close (s : DatabaseService) : DatabaseService :=
  {| client := false;
     _connection_state := StateDisconnected;
     _last_error := _last_error s;
     _reconnect_attempts := _reconnect_attempts s;
     _max_reconnect_attempts := _max_reconnect_attempts s;
     _connection_health_score := 0.0;
     _operation_count := _operation_count s;
     _error_count := _error_count s |}.

(** [__init__]: the fields, then [_connect]. *)
Definition new_service (outcome : ConnectOutcome) : DatabaseService :=
  (_connect
     {| client := false;
        _connection_state := StateDisconnected;
        _last_error := None;
        _reconnect_attempts := 0;
        _max_reconnect_attempts := 3;
        _connection_health_score := 0.0;
        _operation_count := 0;
        _error_count := 0 |}
     outcome).1.

(** [update_tag_tier] and [get_tags_for_rebalancing] of the service:
  the operation through [_execute_operation], [False] or [[]] standing
  in for [None]. *)
Definition update_tag_tier (s : DatabaseService) (ping : PingOutcome)
    (reconnect : ConnectOutcome) (operation : OpOutcome bool)
    (reconnect_after : ConnectOutcome) : DatabaseService * bool :=
  let '(s, result) :=
    _execute_operation s ping reconnect operation reconnect_after in
  (s, default false result).

Definition get_tags_for_rebalancing (s : DatabaseService)
    (ping : PingOutcome) (reconnect : ConnectOutcome)
    (operation : OpOutcome (list Tiering.TagRecord))
    (reconnect_after : ConnectOutcome)
    : DatabaseService * list Tiering.TagRecord :=
  let '(s, result) :=
    _execute_operation s ping reconnect operation reconnect_after in
  (s, default [] result).

(** The calls the rest of the application makes on the service, each
  with what the driver does during the call. *)
Inductive Call :=
  | CallIsConnected (ping : PingOutcome) (reconnect : ConnectOutcome)
  | CallExecute (ping : PingOutcome) (reconnect : ConnectOutcome)
      (operation : OpOutcome unit) (reconnect_after : ConnectOutcome)
  | CallClose.

Definition call (s : DatabaseService) (c : Call) : DatabaseService :=
  match c with
  | CallIsConnected ping reconnect => (is_connected s ping reconnect).1
  | CallExecute ping reconnect operation reconnect_after =>
      (_execute_operation s ping reconnect operation reconnect_after).1
  | CallClose => close s
  end.

End Database.

Module PyFacts.

Import Py.
Local Open Scope Q_scope.

Lemma ltb_lt a b : ltb a b = true <-> a < b.
Proof.
  unfold ltb. rewrite negb_true_iff, <- not_true_iff_false, Qle_bool_iff.
  split; [apply Qnot_le_lt | apply Qlt_not_le].
Qed.

Lemma ltb_ge a b : ltb a b = false <-> b <= a.
Proof.
  unfold ltb. rewrite negb_false_iff. apply Qle_bool_iff.
Qed.

Lemma geb_ge a b : geb a b = true <-> b <= a.
Proof. apply Qle_bool_iff. Qed.

Lemma geb_lt a b : geb a b = false <-> a < b.
Proof.
  unfold geb. rewrite <- not_true_iff_false, Qle_bool_iff.
  split; [apply Qnot_le_lt | apply Qlt_not_le].
Qed.

(** Case analysis on a comparison, with the order facts in context. *)
Ltac cases_ltb a b :=
  let H := fresh "Hcmp" in
  destruct (ltb a b) eqn:H;
  [apply ltb_lt in H | apply ltb_ge in H].

Lemma min_spec a b : (b < a /\ min a b = b) \/ (a <= b /\ min a b = a).
Proof. unfold min. cases_ltb b a; auto. Qed.

Lemma max_spec a b : (a < b /\ max a b = b) \/ (b <= a /\ max a b = a).
Proof. unfold max. cases_ltb a b; auto. Qed.

Lemma min_Qmin a b : min a b == Qmin a b.
Proof.
  destruct (min_spec a b) as [[H ->]|[H ->]].
  - symmetry. apply Q.min_r. lra.
  - symmetry. apply Q.min_l. lra.
Qed.

Lemma max_Qmax a b : max a b == Qmax a b.
Proof.
  destruct (max_spec a b) as [[H ->]|[H ->]].
  - symmetry. apply Q.max_r. lra.
  - symmetry. apply Q.max_l. lra.
Qed.

End PyFacts.

Module EdgeLearningFacts.

Import EdgeLearning.
Local Open Scope Q_scope.

Lemma clip_weight_spec self x :
  _clip_weight self x == spec_clip x 0 (w_max self).
Proof.
  unfold _clip_weight, spec_clip.
  rewrite PyFacts.max_Qmax, PyFacts.min_Qmin. reflexivity.
Qed.

(** The three cases of the clamp. *)
Lemma clip_weight_cases self x :
  let c := _clip_weight self x in
  (c = 0 /\ (x <= 0 \/ w_max self <= 0))
  \/ (c = w_max self /\ 0 < w_max self /\ w_max self < x)
  \/ (c = x /\ 0 < x /\ x <= w_max self).
Proof.
  unfold _clip_weight.
  destruct (PyFacts.min_spec x (w_max self)) as [[Hm ->]|[Hm ->]];
    destruct (PyFacts.max_spec 0 (w_max self)) as [[Hx Ex]|[Hx Ex]];
    destruct (PyFacts.max_spec 0 x) as [[Hy Ey]|[Hy Ey]];
    rewrite ?Ex, ?Ey; intuition (auto; try lra).
Qed.

Lemma clip_weight_range self x :
  0 <= w_max self -> 0 <= _clip_weight self x <= w_max self.
Proof.
  intros Hw.
  destruct (clip_weight_cases self x) as [[-> H]|[[-> H]|[-> H]]]; lra.
Qed.

(** The clamp keeps the order of weights, and leaves a weight of the
    range alone. *)
Lemma clip_weight_monotone (self : Config) (x y : Q) :
  x <= y -> _clip_weight self x <= _clip_weight self y.
Proof.
  intros Hxy.
  destruct (clip_weight_cases self x) as [[-> H]|[[-> H]|[-> H]]];
    destruct (clip_weight_cases self y) as [[-> H']|[[-> H']|[-> H']]];
    lra.
Qed.


(** The code's update is the two-stage formula, clamp for clamp. *)
Lemma update_edge_weight_formula self current_weight accepted :
  _update_edge_weight self current_weight accepted
  == spec_new_weight (eta self) (r self) (d self) (w_max self)
       current_weight accepted.
Proof.
  unfold _update_edge_weight, spec_new_weight.
  rewrite clip_weight_spec.
  apply Q.max_compat; [reflexivity|].
  apply Q.min_compat; [|reflexivity].
  rewrite clip_weight_spec. reflexivity.
Qed.

End EdgeLearningFacts.

(** ** The EMA update rule *)

Module UpdateRule.

Import EdgeLearning EdgeLearningFacts.
Local Open Scope Q_scope.

(** A configuration whose learning rate is zero. *)
Definition frozen_config : Config :=
  {| eta := 0; r := 0.05; d := 0.02; w_max := 1.0;
     window_hours := 24; max_edges_per_tag := 3 |}.

(** C1. Every edge update computes the two-stage formula of the
    specification: [reward = +r] when accepted and [-d] otherwise,
    [target = clip(currentWeight + reward, 0, wMax)] and
    [newWeight = clip((1-eta)*currentWeight + eta*target, 0, wMax)].
    With [currentWeight = 0.5], [eta = 0.1], [r = 0.05], [d = 0.02] and
    [wMax = 1.0] an accepted event yields [0.505] and a rejected one
    [0.498]. *)
Theorem update_edge_weight_two_stage :
  (forall (self : Config) (current_weight : Q) (accepted : bool),
      _update_edge_weight self current_weight accepted
      == spec_new_weight (eta self) (r self) (d self) (w_max self)
           current_weight accepted)
  /\ _update_edge_weight test_config 0.5 true == 0.505
  /\ _update_edge_weight test_config 0.5 false == 0.498.
Proof.
  split; [|split; reflexivity].
  apply update_edge_weight_formula.
Qed.

(** C3. For a current weight in [[0, wMax]], either value of the
    accepted flag, non-negative [r] and [d] and [eta] in [[0, 1]], the
    weight an edge update returns lies in the closed interval
    [[0, wMax]]. *)
Theorem update_edge_weight_in_range (self : Config) (current_weight : Q)
    (accepted : bool) :
  0 <= current_weight <= w_max self ->
  0 <= r self -> 0 <= d self ->
  0 <= eta self <= 1 ->
  0 <= _update_edge_weight self current_weight accepted <= w_max self.
Proof.
  intros Hw _ _ _. unfold _update_edge_weight.
  apply clip_weight_range. lra.
Qed.

Lemma update_edge_weight_in_range_witness :
  0 <= _update_edge_weight test_config 0.5 true <= w_max test_config.
Proof.
  apply (update_edge_weight_in_range test_config 0.5 true);
    repeat split; cbn; lra.
Defined.

(** With a learning rate of zero the blend returns the prior weight
    unchanged, so neither strict inequality of C7 holds. *)
Lemma update_not_strict_at_zero_eta :
  ~ (forall (self : Config) (w : Q),
        (w < w_max self -> 0 < r self ->
         w < _update_edge_weight self w true)
        /\ (0 < w -> 0 < d self ->
            _update_edge_weight self w false < w)).
Proof.
  intros H.
  destruct (H frozen_config 0.5) as [Hup _].
  assert (Hlt : 0.5 < _update_edge_weight frozen_config 0.5 true)
    by (apply Hup; reflexivity).
  revert Hlt. apply Qle_not_lt. discriminate.
Qed.



End UpdateRule.

(** The update rule evaluated on binary64.  At the worked example the
  results are the doubles nearest to [0.505] and [0.498], and the prior
  weight itself when [eta] is zero; next to the bounds of the range,
  and for rewards below the resolution of the weights, rounding decides
  whether the weight moves at all. *)
Module Binary64Examples.

Import PrimFloat Binary64.
Local Open Scope float_scope.
#[local] Set Warnings "-inexact-float".

Example worked_example_binary64 :
  _update_edge_weight test_config 0.5 true = 0.505
  /\ _update_edge_weight test_config 0.5 false = 0.498.
Proof. split; vm_compute; reflexivity. Qed.

Example frozen_binary64 :
  _update_edge_weight frozen_config 0.5 true = 0.5
  /\ _update_edge_weight frozen_config 0.5 false = 0.5.
Proof. split; vm_compute; reflexivity. Qed.

(** At the weight [0.8] of the seeded edge the accepted update is one
  unit in the last place above [0.805], the rejected one is [0.798]. *)
Example seeded_weight_binary64 :
  _update_edge_weight test_config 0.8 true = 0.8050000000000002
  /\ _update_edge_weight test_config 0.8 false = 0.798.
Proof. split; vm_compute; reflexivity. Qed.

(** A rejection can even raise a weight: with a penalty too small to
  change the target, the rounded blend of [0.02] with itself is the next
  double above [0.02]. *)
Example rejection_raises_binary64 :
  ltb 0 (d tiny_penalty_config) = true
  /\ _update_edge_weight tiny_penalty_config 0.02 false
     = 0.020000000000000004
  /\ ltb 0.02 (_update_edge_weight tiny_penalty_config 0.02 false) = true.
Proof. repeat split; vm_compute; reflexivity. Qed.

(** Where the update does not move the weight in the direction of the
  reward, the accepted update is still not below the rejected one. *)
Example accepted_above_rejected_binary64 :
  leb (_update_edge_weight test_config 0.9999999999999999 false)
      (_update_edge_weight test_config 0.9999999999999999 true) = true
  /\ leb (_update_edge_weight test_config 5e-324 false)
         (_update_edge_weight test_config 5e-324 true) = true
  /\ leb (_update_edge_weight tiny_penalty_config 0.02 false)
         (_update_edge_weight tiny_penalty_config 0.02 true) = true.
Proof. repeat split; vm_compute; reflexivity. Qed.


End Binary64Examples.

(** ** Top-M pruning on write *)

Module TopM.

Import EdgeLearning PyFacts.
Local Open Scope Q_scope.

(** Heaviest first: [desc x y] when [x] may precede [y]. *)
Definition desc (x y : string * Q) : Prop := snd y <= snd x.

(** The same order on stored edges. *)
Definition heavier (e1 e2 : Edge) : Prop := w e2 <= w e1.

(** The edge document entry [_upsert_edges] builds from a neighbour. *)
Definition edge_of (current_time : Z) (item : string * Q) : Edge :=
  {| to := item.1; w := item.2; facetSrc := ""; facetDst := "";
     ts := current_time |}.

Lemma Forall_insert_desc (P : string * Q -> Prop) x l :
  P x -> Forall P l -> Forall P (insert_desc x l).
Proof.
  intros Hx Hl. induction Hl as [|y l Hy Hl IH]; simpl.
  - by constructor.
  - destruct (Py.ltb x.2 y.2); repeat constructor; auto.
Qed.

Lemma insert_desc_sorted x l :
  StronglySorted desc l -> StronglySorted desc (insert_desc x l).
Proof.
  induction 1 as [|y l Hl IH Hy]; simpl.
  - repeat constructor.
  - cases_ltb x.2 y.2.
    + constructor; [exact IH|].
      apply Forall_insert_desc; [|exact Hy].
      unfold desc. lra.
    + constructor; [by constructor|].
      constructor; [exact Hcmp|].
      eapply Forall_impl; [exact Hy|].
      unfold desc. intros z Hz. lra.
Qed.

Lemma sorted_desc_sorted items : StronglySorted desc (sorted_desc items).
Proof.
  induction items as [|x items IH]; simpl.
  - constructor.
  - by apply insert_desc_sorted.
Qed.

Lemma insert_desc_length x l : length (insert_desc x l) = S (length l).
Proof.
  induction l as [|y l IH]; simpl; [done|].
  destruct (Py.ltb x.2 y.2); simpl; by rewrite ?IH.
Qed.

Lemma sorted_desc_length items : length (sorted_desc items) = length items.
Proof.
  induction items as [|x items IH]; simpl; [done|].
  by rewrite insert_desc_length, IH.
Qed.

Lemma StronglySorted_take {A} (R : relation A) n l :
  StronglySorted R l -> StronglySorted R (take n l).
Proof.
  intros Hl. revert n.
  induction Hl as [|x l Hl IH Hx]; intros [|n]; simpl; try constructor.
  - apply IH.
  - eapply Forall_forall. intros y Hy.
    eapply Forall_forall in Hx; [exact Hx|].
    apply elem_of_take in Hy as (i & Hy & _).
    by eapply list_elem_of_lookup_2.
Qed.

Lemma slice_to_sorted {A} (R : relation A) l m :
  StronglySorted R l -> StronglySorted R (slice_to l m).
Proof. unfold slice_to. destruct (0 <=? m)%Z; apply StronglySorted_take. Qed.

Lemma slice_to_length {A} (l : list A) m :
  (0 <= m)%Z -> (Z.of_nat (length (slice_to l m)) <= m)%Z.
Proof.
  intros Hm. unfold slice_to.
  destruct (Z.leb_spec 0 m); [|lia].
  rewrite length_take. lia.
Qed.

Lemma edge_of_sorted current_time l :
  StronglySorted desc l -> StronglySorted heavier (edge_of current_time <$> l).
Proof.
  induction 1 as [|x l Hl IH Hx]; simpl; constructor; [exact IH|].
  apply Forall_fmap. eapply Forall_impl; [exact Hx|]. by intros y Hy.
Qed.

Lemma elem_of_insert_desc (z x : string * Q) (l : Neighbours) :
  z ∈ insert_desc x l <-> z = x \/ z ∈ l.
Proof.
  induction l as [|y l IH]; simpl.
  - rewrite list_elem_of_singleton, elem_of_nil. tauto.
  - destruct (Py.ltb x.2 y.2); rewrite !elem_of_cons, ?IH; tauto.
Qed.

(** Sorting keeps exactly the entries it was given. *)
Lemma elem_of_sorted_desc (z : string * Q) (items : Neighbours) :
  z ∈ sorted_desc items <-> z ∈ items.
Proof.
  induction items as [|x items IH]; simpl; [done|].
  rewrite elem_of_insert_desc, elem_of_cons, IH. tauto.
Qed.

Lemma slice_to_all {A} (l : list A) (m : Z) :
  (Z.of_nat (length l) <= m)%Z -> slice_to l m = l.
Proof.
  intros Hm. unfold slice_to.
  destruct (Z.leb_spec 0 m); [|lia].
  apply take_ge. lia.
Qed.

Lemma elem_of_slice_to {A} (x : A) (l : list A) (m : Z) :
  x ∈ slice_to l m -> x ∈ l.
Proof.
  unfold slice_to. destruct (0 <=? m)%Z;
    intros (i & Hi & _)%elem_of_take; by eapply list_elem_of_lookup_2.
Qed.

Lemma dict_set_elem (edges : Neighbours) (key : string) (value : Q) :
  (key, value) ∈ dict_set edges key value.
Proof.
  induction edges as [|[k v] edges IH]; simpl.
  - by apply list_elem_of_singleton.
  - destruct (String.eqb_spec k key) as [->|_].
    + by left.
    + by right.
Qed.

(** What [_upsert_edges] stores. *)
Lemma upsert_edges_stored self time_time db org_id tag edges :
  (_upsert_edges self time_time db org_id tag edges).1 !! (org_id, tag)
  = Some (edge_of time_time
            <$> slice_to (sorted_desc edges) (max_edges_per_tag self)).
Proof.
  unfold _upsert_edges. simpl. rewrite lookup_insert_eq.
  f_equal. apply list_fmap_ext. by intros i [to_tag weight] _.
Qed.

Lemma upsert_edges_other self time_time db org_id tag edges key :
  key <> (org_id, tag) ->
  (_upsert_edges self time_time db org_id tag edges).1 !! key = db !! key.
Proof. intros Hne. unfold _upsert_edges. simpl. by rewrite lookup_insert_ne. Qed.

End TopM.

Module TopMExamples.

Import EdgeLearning TopM.
Local Open Scope Q_scope.

(** The seed of [test_top_m_pruning]: four neighbours of [python]. *)
Definition four_neighbours : Neighbours :=
  [("fastapi", 0.8); ("machine_learning", 0.6); ("data_science", 0.4);
   ("web_development", 0.2)].

(** Clock readings: when the seed was written, when the event was
  recorded, and when the pass runs. *)
Definition seed_time : Z := 1700000000.
Definition event_time : Z := 1700000100.
Definition pass_time : Z := 1700000200.

Definition seeded_db : TagEdges :=
  {[ ("test-org", "python") := edge_of seed_time <$> four_neighbours ]}.

Definition accepted_event : PackEvent :=
  {| orgId := "test-org"; projectId := "test-project"; packId := "pack-1";
     accepted := Some true; tags := Some ["python"; "fastapi"];
     itemIds := ["mem-1"]; event_ts := event_time |}.

End TopMExamples.

Module TopMInvariant.

Import EdgeLearning TopM TopMExamples.
Local Open Scope Q_scope.

(** A configuration with [MME_MAX_EDGES_PER_TAG=-1], which
  [int(os.getenv(...))] accepts. *)
Definition negative_bound_config : Config :=
  {| eta := 0.1; r := 0.05; d := 0.02; w_max := 1.0;
     window_hours := 24; max_edges_per_tag := -1 |}.

(** C4 fails as stated: with [maxEdgesPerTag = -1] the slice
  [sorted_edges[:-1]] drops the last entry only, so the write of the four
  neighbours stores three edges, more than [maxEdgesPerTag]. *)
Lemma upsert_edges_unbounded_at_negative_bound :
  (length <$>
     (_upsert_edges negative_bound_config pass_time ∅ "test-org" "python"
        four_neighbours).1 !! ("test-org", "python"))
  = Some 3%nat
  /\ ~ (forall (self : Config) (time_time : Z) (db : TagEdges)
               (org_id tag : string) (edges : Neighbours),
          exists stored : list Edge,
            (_upsert_edges self time_time db org_id tag edges).1
              !! (org_id, tag)
            = Some stored
            /\ (Z.of_nat (length stored) <= max_edges_per_tag self)%Z
            /\ StronglySorted heavier stored).
Proof.
  split; [by vm_compute|].
  intros H.
  destruct (H negative_bound_config pass_time ∅ "test-org" "python"
              four_neighbours) as (stored & Hstored & Hlen & _).
  rewrite upsert_edges_stored in Hstored.
  injection Hstored as <-. vm_compute in Hlen. by apply Hlen.
Qed.

(** C4 (amended). When [maxEdgesPerTag] is not negative: after every
  write of a tag-edge document, whatever the neighbour map, the stored
  edge list has at most [maxEdgesPerTag] entries and is sorted by
  weight, heaviest first.  Writing a node with the four edges
  [0.8, 0.6, 0.4, 0.2] under [maxEdgesPerTag = 3] keeps exactly three
  edges and drops the lightest one, both for a bare write and for the
  learning pass of [test_top_m_pruning]. *)
Theorem upsert_edges_bounded_sorted :
  (forall (self : Config) (time_time : Z) (db : TagEdges)
          (org_id tag : string) (edges : Neighbours),
      (0 <= max_edges_per_tag self)%Z ->
      exists stored : list Edge,
        (_upsert_edges self time_time db org_id tag edges).1 !! (org_id, tag)
        = Some stored
        /\ (Z.of_nat (length stored) <= max_edges_per_tag self)%Z
        /\ StronglySorted heavier stored)
  /\ _upsert_edges test_config pass_time seeded_db "test-org" "python"
       four_neighbours
     = ({[ ("test-org", "python") :=
             edge_of pass_time
               <$> [("fastapi", 0.8); ("machine_learning", 0.6);
                    ("data_science", 0.4)] ]}, 3%Z)
  /\ (exists stored : list Edge,
        (run test_config pass_time 0 [accepted_event] seeded_db
           (Some "test-org") (Some 24%Z)).1 !! ("test-org", "python")
        = Some stored
        /\ to <$> stored = ["fastapi"; "machine_learning"; "data_science"]).
Proof.
  split; [|split].
  - intros self time_time db org_id tag edges HM.
    eexists. split; [apply upsert_edges_stored|]. split.
    + rewrite length_fmap. by apply slice_to_length.
    + apply edge_of_sorted, slice_to_sorted, sorted_desc_sorted.
  - by vm_compute.
  - eexists. split; [by vm_compute|]. by vm_compute.
Qed.

Lemma upsert_edges_bounded_sorted_witness :
  exists stored : list Edge,
    (_upsert_edges test_config pass_time seeded_db "test-org" "python"
       four_neighbours).1 !! ("test-org", "python") = Some stored
    /\ (Z.of_nat (length stored) <= max_edges_per_tag test_config)%Z
    /\ StronglySorted heavier stored.
Proof.
  apply (proj1 upsert_edges_bounded_sorted test_config pass_time seeded_db
           "test-org" "python" four_neighbours).
  simpl. lia.
Defined.

End TopMInvariant.

(** ** Tag pairs *)

Module Pairs.

Import EdgeLearning.

(** The reading of "all unordered pairs [(a, b)], [a ≠ b], without
  repeats, drawn from the tags": every listed pair joins two different
  tags of the event, every two different tags are joined by a listed
  pair, and no pair is listed twice, in either orientation. *)
Definition unordered_pairs_of (tags : list string)
    (pairs : list (string * string)) : Prop :=
  (forall a b, (a, b) ∈ pairs -> a ∈ tags /\ b ∈ tags /\ a <> b)
  /\ (forall a b, a ∈ tags -> b ∈ tags -> a <> b ->
        (a, b) ∈ pairs \/ (b, a) ∈ pairs)
  /\ NoDup pairs
  /\ (forall a b, (a, b) ∈ pairs -> (b, a) ∉ pairs).

Lemma elem_of_build_tag_pairs_cons a b t rest :
  (a, b) ∈ _build_tag_pairs (t :: rest)
  <-> (a = t /\ b ∈ rest) \/ (a, b) ∈ _build_tag_pairs rest.
Proof.
  simpl. rewrite elem_of_app, list_elem_of_fmap.
  split; intros [H|H]; auto.
  - destruct H as (y & [= -> ->] & Hy). auto.
  - destruct H as [-> Hb]. left. by exists b.
Qed.

(** A listed pair takes its first component from an earlier position
  than its second. *)
Lemma elem_of_build_tag_pairs a b tags :
  (a, b) ∈ _build_tag_pairs tags
  <-> exists l1 l2 l3, tags = l1 ++ a :: l2 ++ b :: l3.
Proof.
  induction tags as [|t rest IH].
  - split; [by intros ?%elem_of_nil|].
    intros (l1 & l2 & l3 & H). by destruct l1.
  - rewrite elem_of_build_tag_pairs_cons, IH. split.
    + intros [[-> Hb]|(l1 & l2 & l3 & ->)].
      * apply list_elem_of_split in Hb as (l2 & l3 & ->). by exists [], l2, l3.
      * by exists (t :: l1), l2, l3.
    + intros (l1 & l2 & l3 & H). destruct l1 as [|x l1]; simplify_eq/=.
      * left. split; [done|]. apply elem_of_app. right. by left.
      * right. by exists l1, l2, l3.
Qed.

Lemma build_tag_pairs_elem_of a b tags :
  (a, b) ∈ _build_tag_pairs tags -> a ∈ tags /\ b ∈ tags.
Proof.
  intros (l1 & l2 & l3 & ->)%elem_of_build_tag_pairs.
  split; set_solver.
Qed.

Lemma build_tag_pairs_length tags :
  (2 * length (_build_tag_pairs tags) = length tags * (length tags - 1))%nat.
Proof.
  induction tags as [|t rest IH]; simpl; [done|].
  rewrite length_app, length_fmap. nia.
Qed.

(** On tags that are pairwise different the code lists exactly the
  unordered pairs. *)
Lemma build_tag_pairs_distinct tags :
  NoDup tags -> unordered_pairs_of tags (_build_tag_pairs tags).
Proof.
  induction 1 as [|t rest Ht Hrest (IH1 & IH2 & IH3 & IH4)].
  - split; [|split; [|split]].
    + intros a b H. by apply elem_of_nil in H.
    + intros a b H. by apply elem_of_nil in H.
    + constructor.
    + intros a b H. by apply elem_of_nil in H.
  - split; [|split; [|split]].
    + intros a b H.
      pose proof (build_tag_pairs_elem_of _ _ _ H) as [Ha Hb].
      split; [done|split; [done|]].
      apply elem_of_build_tag_pairs_cons in H as [[-> Hb']|H].
      * by intros ->.
      * by apply IH1 in H as (_ & _ & ?).
    + intros a b Ha Hb Hab. rewrite !elem_of_build_tag_pairs_cons.
      apply elem_of_cons in Ha as [->|Ha]; apply elem_of_cons in Hb as [->|Hb].
      * done.
      * by left; left.
      * by right; left.
      * destruct (IH2 a b Ha Hb Hab); [left|right]; by right.
    + simpl. apply NoDup_app. split; [|split].
      * apply NoDup_fmap_2; [|done]. by intros x y [= ->].
      * intros [a b] (y & [= -> ->] & Hy)%list_elem_of_fmap Hin.
        apply build_tag_pairs_elem_of in Hin. tauto.
      * done.
    + intros a b Hab Hba.
      apply elem_of_build_tag_pairs_cons in Hab as [[-> Hb]|Hab];
        apply elem_of_build_tag_pairs_cons in Hba as [[-> Ha]|Hba].
      * done.
      * apply build_tag_pairs_elem_of in Hba. tauto.
      * apply build_tag_pairs_elem_of in Hab. tauto.
      * by apply IH4 in Hab.
Qed.

(** Fewer than two tags: no pair, and the event changes nothing. *)
Lemma event_pairs_short event :
  (length (default [] (tags event)) < 2)%nat -> event_pairs event = [].
Proof.
  intros H. unfold event_pairs.
  by destruct (Nat.ltb_spec (length (default [] (tags event))) 2); [|lia].
Qed.

Lemma run_event_pairs self time_time org st event :
  run_event self time_time org st event
  = fold_left (run_pair self time_time org (default false (accepted event)))
      (event_pairs event) st.
Proof.
  unfold run_event, event_pairs.
  by destruct (length (default [] (tags event)) <? 2)%nat.
Qed.

Lemma run_event_short self time_time org st event :
  (length (default [] (tags event)) < 2)%nat ->
  run_event self time_time org st event = st.
Proof.
  intros H. by rewrite run_event_pairs, event_pairs_short.
Qed.

(** An event whose tag list names a tag twice. *)
Definition repeated_tag_event : PackEvent :=
  {| orgId := "test-org"; projectId := "test-project"; packId := "pack-1";
     accepted := Some true; tags := Some ["a"; "b"; "a"];
     itemIds := ["mem-1"]; event_ts := 1700000100 |}.

(** C2 (the code at a tag list with a repeated tag). The pairs [run]
  processes for the tags [a, b, a] are [(a, b)], [(a, a)] and [(b, a)]:
  a pair of a tag with itself, and the unordered pair of [a] and [b]
  twice.  They are not the unordered pairs of different tags without
  repeats that the specification and the docstring of
  [_build_tag_pairs] promise. *)
Theorem build_tag_pairs_repeated_tag :
  event_pairs repeated_tag_event = [("a", "b"); ("a", "a"); ("b", "a")]
  /\ ~ unordered_pairs_of ["a"; "b"; "a"] (event_pairs repeated_tag_event).
Proof.
  split; [done|].
  intros (H1 & _). destruct (H1 "a" "a") as (_ & _ & Hne); [|done].
  change (event_pairs repeated_tag_event)
    with [("a", "b"); ("a", "a"); ("b", "a")].
  apply elem_of_cons. right. apply elem_of_cons. by left.
Qed.

End Pairs.

(** ** The learning pass *)

Module Pass.

Import EdgeLearning TopM Pairs.
Local Open Scope Z_scope.

Section WithJob.

Variable self : Config.
Variable time_time : Z.
Variable total_duration : Q.

(** The edge list one direction writes for [src]: the neighbours read
  from [db], with the weight towards [dst] updated, sorted and cut to the
  top M. *)
Definition written (db : TagEdges) (org src dst : string) (accepted : bool)
    : list Edge :=
  let current_edges := _get_current_edges db org src in
  let new_weight :=
    _update_edge_weight self (dict_get current_edges dst 0) accepted in
  edge_of time_time
    <$> slice_to (sorted_desc (dict_set current_edges dst new_weight))
          (max_edges_per_tag self).

Lemma update_direction_lookup (db : TagEdges) (org src dst : string)
    (accepted : bool) :
  update_direction self time_time db org src dst accepted !! (org, src)
  = Some (written db org src dst accepted).
Proof. unfold update_direction. apply upsert_edges_stored. Qed.

Lemma update_direction_other (db : TagEdges) (org src dst : string)
    (accepted : bool) (key : string * string) :
  key <> (org, src) ->
  update_direction self time_time db org src dst accepted !! key = db !! key.
Proof. intros Hne. unfold update_direction. by apply upsert_edges_other. Qed.

(** What one direction reads depends on the document of its source tag
  only. *)
Lemma get_current_edges_ext (db1 db2 : TagEdges) (org tag : string) :
  db1 !! (org, tag) = db2 !! (org, tag) ->
  _get_current_edges db1 org tag = _get_current_edges db2 org tag.
Proof. unfold _get_current_edges. by intros ->. Qed.

Lemma written_ext (db1 db2 : TagEdges) (org src dst : string)
    (accepted : bool) :
  db1 !! (org, src) = db2 !! (org, src) ->
  written db1 org src dst accepted = written db2 org src dst accepted.
Proof.
  intros H. unfold written. by rewrite (get_current_edges_ext db1 db2).
Qed.

(** *** Counting *)

Lemma run_pair_count (org : string) (accepted : bool) (st : TagEdges * Z)
    (tag_pair : string * string) :
  (run_pair self time_time org accepted st tag_pair).2 = st.2 + 2.
Proof. destruct st as [db n], tag_pair as [tag1 tag2]. simpl. lia. Qed.

Lemma run_pairs_count (org : string) (accepted : bool)
    (pairs : list (string * string)) (st : TagEdges * Z) :
  (fold_left (run_pair self time_time org accepted) pairs st).2
  = st.2 + 2 * Z.of_nat (length pairs).
Proof.
  revert st. induction pairs as [|p pairs IH]; intros st; simpl; [lia|].
  rewrite IH, run_pair_count. lia.
Qed.

Lemma run_event_count (org : string) (st : TagEdges * Z)
    (event : PackEvent) :
  (run_event self time_time org st event).2
  = st.2 + 2 * Z.of_nat (length (event_pairs event)).
Proof. rewrite run_event_pairs. apply run_pairs_count. Qed.

(** The pairs a pass processes for one organisation, and in all. *)
Definition org_pairs (pack_events : list PackEvent) (hours : option Z)
    (org : string) : list (string * string) :=
  _get_recent_pack_events self time_time pack_events org hours
    ≫= event_pairs.

Definition pass_pairs (pack_events : list PackEvent)
    (org_id : option string) (hours : option Z) : list (string * string) :=
  select_orgs pack_events org_id ≫= org_pairs pack_events hours.

Lemma run_events_count (org : string) (events : list PackEvent)
    (st : TagEdges * Z) :
  (fold_left (run_event self time_time org) events st).2
  = st.2 + 2 * Z.of_nat (length (events ≫= event_pairs)).
Proof.
  revert st. induction events as [|event events IH]; intros st.
  - simpl. lia.
  - rewrite bind_cons, length_app. cbn [fold_left].
    rewrite IH, run_event_count. lia.
Qed.

Lemma run_org_count (pack_events : list PackEvent) (hours : option Z)
    (st : TagEdges * Z * Z) (org : string) :
  (run_org self time_time pack_events hours st org).1.2
  = st.1.2 + 2 * Z.of_nat (length (org_pairs pack_events hours org)).
Proof.
  destruct st as [[db total_updated] total_pruned].
  unfold run_org, org_pairs.
  destruct (_get_recent_pack_events _ _ _ _ _) as [|event events] eqn:E.
  - simpl. lia.
  - pose proof (run_events_count org (event :: events) (db, 0)) as H.
    destruct (fold_left _ (event :: events) (db, 0)) as [db' n].
    simpl in *. lia.
Qed.

Lemma run_org_pruned (pack_events : list PackEvent) (hours : option Z)
    (st : TagEdges * Z * Z) (org : string) :
  (run_org self time_time pack_events hours st org).2 = st.2.
Proof.
  destruct st as [[db total_updated] total_pruned]. unfold run_org.
  destruct (_get_recent_pack_events _ _ _ _ _) as [|event events]; [done|].
  by destruct (fold_left _ (event :: events) (db, 0)).
Qed.

Lemma run_orgs_count (pack_events : list PackEvent) (hours : option Z)
    (orgs : list string) (st : TagEdges * Z * Z) :
  (fold_left (run_org self time_time pack_events hours) orgs st).1.2
  = st.1.2 + 2 * Z.of_nat (length (orgs ≫= org_pairs pack_events hours)).
Proof.
  revert st. induction orgs as [|org orgs IH]; intros st.
  - simpl. lia.
  - rewrite bind_cons, length_app. cbn [fold_left].
    rewrite IH, run_org_count. lia.
Qed.

Lemma run_orgs_pruned (pack_events : list PackEvent) (hours : option Z)
    (orgs : list string) (st : TagEdges * Z * Z) :
  (fold_left (run_org self time_time pack_events hours) orgs st).2 = st.2.
Proof.
  revert st. induction orgs as [|org orgs IH]; intros st; simpl; [done|].
  by rewrite IH, run_org_pruned.
Qed.

Lemma run_updated (pack_events : list PackEvent) (db : TagEdges)
    (org_id : option string) (hours : option Z) :
  updated (run self time_time total_duration pack_events db org_id hours).2
  = 2 * Z.of_nat (length (pass_pairs pack_events org_id hours)).
Proof.
  unfold run, pass_pairs.
  pose proof (run_orgs_count pack_events hours
                (select_orgs pack_events org_id) (db, 0, 0)) as H.
  destruct (fold_left _ _ (db, 0, 0)) as [[db' n] p]. simpl in *. lia.
Qed.

Lemma run_pruned (pack_events : list PackEvent) (db : TagEdges)
    (org_id : option string) (hours : option Z) :
  pruned (run self time_time total_duration pack_events db org_id hours).2
  = 0.
Proof.
  unfold run.
  pose proof (run_orgs_pruned pack_events hours
                (select_orgs pack_events org_id) (db, 0, 0)) as H.
  destruct (fold_left _ _ (db, 0, 0)) as [[db' n] p]. simpl in *. lia.
Qed.

(** When the neighbours of the source fit in the top M, the edge towards
  [dst] is in the written document, with the updated weight. *)
Lemma written_contains (db : TagEdges) (org src dst : string)
    (accepted : bool) :
  let current_edges := _get_current_edges db org src in
  let new_weight :=
    _update_edge_weight self (dict_get current_edges dst 0) accepted in
  Z.of_nat (length (dict_set current_edges dst new_weight))
  <= max_edges_per_tag self ->
  edge_of time_time (dst, new_weight) ∈ written db org src dst accepted.
Proof.
  intros current_edges new_weight Hfit. unfold written.
  apply list_elem_of_fmap_2.
  rewrite slice_to_all by (by rewrite sorted_desc_length).
  apply elem_of_sorted_desc, dict_set_elem.
Qed.

(** *** One event with two different tags *)

Lemma run_event_two_tags (org : string) (db : TagEdges) (n : Z)
    (event : PackEvent) (A B : string) :
  tags event = Some [A; B] ->
  run_event self time_time org (db, n) event
  = (update_direction self time_time
       (update_direction self time_time db org A B
          (default false (accepted event)))
       org B A (default false (accepted event)),
     n + 2).
Proof.
  intros Htags. unfold run_event. rewrite Htags. simpl.
  f_equal. lia.
Qed.

End WithJob.

End Pass.

(** ** Both directions, and the counters of the summary *)

Module Directions.

Import EdgeLearning EdgeLearningFacts TopM TopMExamples Pairs Pass.
Local Open Scope Z_scope.

(** The neighbours a stored document names, in order. *)
Definition stored_targets (db : TagEdges) (org tag : string) : list string :=
  to <$> default [] (db !! (org, tag)).

(** *** What the handler of the loop over the organisations does *)

(** An event whose [tags] holds a list or is absent. *)
Definition sized (doc : Handlers.StoredEvent) : bool :=
  negb (Handlers.tags_null doc).

Definition with_tags (event : PackEvent) : Handlers.StoredEvent :=
  {| Handlers.event := event; Handlers.tags_null := false |}.

Definition null_tags (event : PackEvent) : Handlers.StoredEvent :=
  {| Handlers.event := event; Handlers.tags_null := true |}.

(** The events before the first one whose [tags] is [null]. *)
Fixpoint before_null (events : list Handlers.StoredEvent) : list PackEvent :=
  match events with
  | [] => []
  | doc :: rest =>
      if Handlers.tags_null doc then []
      else Handlers.event doc :: before_null rest
  end.

Section WithJob.

Variable self : Config.
Variable time_time : Z.
Variable total_duration : Q.
Variable cutoff : Z -> Tiering.result Z.

(** What an organisation adds to [updated]: two per pair when its
  processing ends without an exception, nothing otherwise. *)
Definition org_count (pack_events : list Handlers.StoredEvent)
    (hours : option Z) (org : string) : Z :=
  match Handlers._get_recent_pack_events self cutoff pack_events org hours with
  | Tiering.Ok events =>
      if forallb sized events
      then 2 * Z.of_nat
                 (length ((Handlers.event <$> events) ≫= event_pairs))
      else 0
  | Tiering.Raise _ => 0
  end.

Lemma run_events_sized (org : string) (events : list Handlers.StoredEvent)
    (st : TagEdges * Z) :
  forallb sized events = true ->
  Handlers.run_events self time_time org events st
  = ((fold_left (run_event self time_time org) (Handlers.event <$> events)
        st).1,
     Tiering.Ok
       (fold_left (run_event self time_time org) (Handlers.event <$> events)
          st).2).
Proof.
  revert st. induction events as [|doc events IH]; intros st; [done|].
  cbn [forallb Handlers.run_events fmap list_fmap fold_left]. unfold sized at 1.
  destruct (Handlers.tags_null doc); [done|]. cbn [negb andb].
  apply IH.
Qed.

Lemma run_events_null (org : string) (events : list Handlers.StoredEvent)
    (st : TagEdges * Z) :
  forallb sized events = false ->
  Handlers.run_events self time_time org events st
  = ((fold_left (run_event self time_time org) (before_null events) st).1,
     Tiering.Raise Tiering.TypeError).
Proof.
  revert st. induction events as [|doc events IH]; intros st; [done|].
  cbn [forallb Handlers.run_events before_null]. unfold sized at 1.
  destruct (Handlers.tags_null doc); [done|]. cbn [negb andb fold_left].
  apply IH.
Qed.

(** One organisation, case by case. *)
Lemma run_org_cases (pack_events : list Handlers.StoredEvent)
    (hours : option Z) (db : TagEdges) (total_updated total_pruned : Z)
    (org : string) :
  let st' :=
    Handlers.run_org self time_time cutoff pack_events hours
      (db, total_updated, total_pruned) org in
  match Handlers._get_recent_pack_events self cutoff pack_events org hours with
  | Tiering.Raise _ => st' = (db, total_updated, total_pruned)
  | Tiering.Ok events =>
      if forallb sized events
      then
        st'
        = ((fold_left (run_event self time_time org)
              (Handlers.event <$> events) (db, 0)).1,
           total_updated
           + 2 * Z.of_nat
                   (length ((Handlers.event <$> events) ≫= event_pairs)),
           total_pruned)
      else
        st'
        = ((fold_left (run_event self time_time org) (before_null events)
              (db, 0)).1,
           total_updated, total_pruned)
  end.
Proof.
  intros st'. subst st'. unfold Handlers.run_org.
  destruct (Handlers._get_recent_pack_events _ _ _ _ _) as [events|e];
    [|done].
  destruct (forallb sized events) eqn:E.
  - destruct events as [|doc events].
    + cbn. do 2 f_equal. lia.
    + rewrite (run_events_sized org (doc :: events) (db, 0) E).
      do 2 f_equal.
      rewrite (run_events_count self time_time org
                 (Handlers.event <$> doc :: events) (db, 0)).
      cbn [snd]. lia.
  - destruct events as [|doc events]; [done|].
    by rewrite (run_events_null org (doc :: events) (db, 0) E).
Qed.

Lemma run_org_handled_count (pack_events : list Handlers.StoredEvent)
    (hours : option Z) (st : TagEdges * Z * Z) (org : string) :
  (Handlers.run_org self time_time cutoff pack_events hours st org).1.2
  = st.1.2 + org_count pack_events hours org.
Proof.
  destruct st as [[db total_updated] total_pruned].
  pose proof (run_org_cases pack_events hours db total_updated total_pruned
                org) as H.
  cbv zeta in H. unfold org_count.
  destruct (Handlers._get_recent_pack_events _ _ _ _ _) as [events|e].
  - destruct (forallb sized events); rewrite H; cbn [fst snd]; lia.
  - rewrite H. cbn [fst snd]. lia.
Qed.

Lemma run_orgs_handled_count (pack_events : list Handlers.StoredEvent)
    (hours : option Z) (orgs : list string) (st : TagEdges * Z * Z) :
  (fold_left (Handlers.run_org self time_time cutoff pack_events hours)
     orgs st).1.2
  = st.1.2 + foldr Z.add 0 (org_count pack_events hours <$> orgs).
Proof.
  revert st. induction orgs as [|org orgs IH]; intros st.
  - cbn. lia.
  - cbn [fold_left fmap list_fmap foldr].
    rewrite IH, run_org_handled_count. lia.
Qed.

Lemma run_handled_updated (pack_events : list Handlers.StoredEvent)
    (db : TagEdges) (org_id : option string) (hours : option Z) :
  updated
    (Handlers.run self time_time total_duration cutoff pack_events db org_id
       hours).2
  = foldr Z.add 0
      (org_count pack_events hours
         <$> select_orgs (Handlers.event <$> pack_events) org_id).
Proof.
  unfold Handlers.run.
  pose proof (run_orgs_handled_count pack_events hours
                (select_orgs (Handlers.event <$> pack_events) org_id)
                (db, 0, 0)) as H.
  destruct (fold_left _ _ (db, 0, 0)) as [[db' n] p]. cbn in *. lia.
Qed.

(** With a cutoff that is computed and events whose [tags] all have a
  length nothing raises, and the pass is [EdgeLearning.run]. *)
Lemma recent_with_tags (pack_events : list PackEvent) (org : string)
    (hours : option Z) :
  (forall h : Z, cutoff h = Tiering.Ok (time_time - h * 3600)) ->
  Handlers._get_recent_pack_events self cutoff (with_tags <$> pack_events)
    org hours
  = Tiering.Ok
      (with_tags
         <$> _get_recent_pack_events self time_time pack_events org hours).
Proof.
  intros Hcutoff.
  unfold Handlers._get_recent_pack_events, _get_recent_pack_events.
  rewrite Hcutoff. f_equal.
  induction pack_events as [|event events IH]; [done|].
  cbn [fmap list_fmap List.filter with_tags Handlers.event].
  destruct (_ && _); cbn [fmap list_fmap]; by f_equal.
Qed.

Lemma run_without_exception (pack_events : list PackEvent) (db : TagEdges)
    (org_id : option string) (hours : option Z) :
  (forall h : Z, cutoff h = Tiering.Ok (time_time - h * 3600)) ->
  Handlers.run self time_time total_duration cutoff
    (with_tags <$> pack_events) db org_id hours
  = run self time_time total_duration pack_events db org_id hours.
Proof.
  intros Hcutoff. unfold Handlers.run, run.
  assert (Hev : forall events : list PackEvent,
             Handlers.event <$> (with_tags <$> events) = events).
  { intros events. rewrite <- list_fmap_compose.
    etrans; [|apply list_fmap_id]. by apply list_fmap_ext. }
  rewrite Hev.
  assert (Horg : forall (st : TagEdges * Z * Z) (org : string),
             Handlers.run_org self time_time cutoff (with_tags <$> pack_events)
               hours st org
             = run_org self time_time pack_events hours st org).
  { intros [[db0 total_updated] total_pruned] org.
    unfold Handlers.run_org, run_org.
    rewrite (recent_with_tags pack_events org hours Hcutoff).
    destruct (_get_recent_pack_events self time_time pack_events org hours)
      as [|event events]; [done|].
    change (with_tags <$> event :: events)
      with (with_tags <$> (event :: events)).
    rewrite run_events_sized.
    - rewrite Hev. by destruct (fold_left _ (event :: events) (db0, 0)).
    - apply forallb_forall. intros doc Hdoc.
      apply in_map_iff in Hdoc as (e & <- & _). done. }
  generalize (db, 0, 0) as st.
  induction (select_orgs pack_events org_id) as [|org orgs IH]; intros st.
  - done.
  - cbn [fold_left]. rewrite Horg. apply IH.
Qed.

End WithJob.

(** *** The claim at a saturated node, and at an organisation that raises *)

(** An accepted event that joins [python], whose document is full, to a
  new neighbour. *)
Definition new_neighbour_event : PackEvent :=
  {| orgId := "test-org"; projectId := "test-project"; packId := "pack-2";
     accepted := Some true; tags := Some ["python"; "rust"];
     itemIds := ["mem-2"]; event_ts := event_time |}.

(** A later event of the same organisation whose [tags] is [null]. *)
Definition null_tags_event : Handlers.StoredEvent :=
  null_tags
    {| orgId := "test-org"; projectId := "test-project"; packId := "pack-3";
       accepted := Some true; tags := None;
       itemIds := ["mem-3"]; event_ts := event_time |}.

(** The cutoff of a process whose local time is UTC, within the range
  of [datetime]. *)
Definition utc_cutoff (time_time : Z) (hours : Z) : Tiering.result Z :=
  Tiering.Ok (time_time - hours * 3600).

(** C6 fails as stated, in both halves.  On the seeded collection with
  [maxEdgesPerTag = 3] the event with [tags = [python, rust]] is counted
  twice, yet the document of [python] holds no edge to [rust] afterwards:
  the new edge is the lightest and is cut by the write that adds it.
  And when a later event of the organisation raises (its [tags] is
  [null]), the two directions of the first event have been written and
  the returned [updated] is [0]. *)
Lemma direction_cut_or_not_counted :
  (let result :=
     Handlers.run test_config pass_time 0 (utc_cutoff pass_time)
       [with_tags new_neighbour_event] seeded_db
       (Some "test-org") (Some 24) in
   updated result.2 = 2
   /\ stored_targets result.1 "test-org" "python"
      = ["fastapi"; "machine_learning"; "data_science"]
   /\ "rust" ∉ stored_targets result.1 "test-org" "python")
  /\ (let result :=
        Handlers.run test_config pass_time 0 (utc_cutoff pass_time)
          [with_tags accepted_event; null_tags_event] seeded_db
          (Some "test-org") (Some 24) in
      updated result.2 = 0
      /\ result.1 !! ("test-org", "python")
         = Some (written test_config pass_time seeded_db "test-org"
                   "python" "fastapi" true)
      /\ result.1 !! ("test-org", "python")
         <> seeded_db !! ("test-org", "python")).
Proof.
  split; cbv zeta.
  - split; [by vm_compute|]. split; [by vm_compute|].
    assert (E : stored_targets
                  (Handlers.run test_config pass_time 0
                     (utc_cutoff pass_time) [with_tags new_neighbour_event]
                     seeded_db (Some "test-org") (Some 24)).1
                  "test-org" "python"
                = ["fastapi"; "machine_learning"; "data_science"])
      by (by vm_compute).
    rewrite E. intros H.
    repeat (apply elem_of_cons in H as [H|H]; [discriminate H|]).
    by apply elem_of_nil in H.
  - split; [by vm_compute|]. split; [by vm_compute|].
    assert (E : (Handlers.run test_config pass_time 0 (utc_cutoff pass_time)
                   [with_tags accepted_event; null_tags_event] seeded_db
                   (Some "test-org") (Some 24)).1 !! ("test-org", "python")
                = Some (written test_config pass_time seeded_db "test-org"
                          "python" "fastapi" true))
      by (by vm_compute).
    rewrite E. by vm_compute.
Qed.

(** C6 (amended). Every processed pair runs the update once per
  direction, first [tag1 -> tag2] and then [tag2 -> tag1], and each
  direction adds 1 to the count of the organisation, a pair 2.  An event
  with [tags = [A, B]] (two different tags) rewrites the document of
  [A] and the document of [B], each from what was stored before the
  event, and no other document.  The document a direction writes for its
  source holds neighbours of the updated map only, the map in which the
  weight towards the target is the two-stage formula applied to the
  weight stored before (0 when there was none); it holds the updated
  edge whenever the neighbours of the source fit in [maxEdgesPerTag],
  and otherwise the edge can be cut by the write that adds it, and is
  counted all the same.  The count of an organisation is added to the
  returned [updated] when its processing ends without an exception;
  when the cutoff cannot be computed the organisation writes and adds
  nothing, and when an event raises, what was written before it stays
  written and the organisation adds nothing: [updated] is twice the
  number of pairs of the organisations whose processing did not
  raise. *)
Theorem both_directions_updated :
  (forall (self : Config) (time_time : Z) (org : string) (accepted : bool)
          (db : TagEdges) (n : Z) (tag1 tag2 : string),
      run_pair self time_time org accepted (db, n) (tag1, tag2)
      = (update_direction self time_time
           (update_direction self time_time db org tag1 tag2 accepted)
           org tag2 tag1 accepted,
         n + 1 + 1))
  /\ (forall (self : Config) (time_time : Z) (org : string) (db : TagEdges)
             (n : Z) (event : PackEvent) (A B : string),
        tags event = Some [A; B] ->
        A <> B ->
        let accepted := default false (accepted event) in
        let st := run_event self time_time org (db, n) event in
        st.2 = n + 2
        /\ st.1 !! (org, A) = Some (written self time_time db org A B accepted)
        /\ st.1 !! (org, B) = Some (written self time_time db org B A accepted)
        /\ (forall key : string * string,
              key <> (org, A) -> key <> (org, B) -> st.1 !! key = db !! key))
  /\ (forall (self : Config) (time_time : Z) (db : TagEdges)
             (org src dst : string) (accepted : bool),
        let current_edges := _get_current_edges db org src in
        let current_weight := dict_get current_edges dst 0 in
        let new_weight := _update_edge_weight self current_weight accepted in
        (new_weight
         == spec_new_weight (eta self) (r self) (d self) (w_max self)
              current_weight accepted)%Q
        /\ (forall e : Edge,
              e ∈ written self time_time db org src dst accepted ->
              (to e, w e) ∈ dict_set current_edges dst new_weight
              /\ ts e = time_time)
        /\ (Z.of_nat (length (dict_set current_edges dst new_weight))
            <= max_edges_per_tag self ->
            edge_of time_time (dst, new_weight)
            ∈ written self time_time db org src dst accepted))
  /\ (forall (self : Config) (time_time : Z) (cutoff : Z -> Tiering.result Z)
             (pack_events : list Handlers.StoredEvent) (hours : option Z)
             (db : TagEdges) (total_updated total_pruned : Z) (org : string),
        let st' :=
          Handlers.run_org self time_time cutoff pack_events hours
            (db, total_updated, total_pruned) org in
        match
          Handlers._get_recent_pack_events self cutoff pack_events org hours
        with
        | Tiering.Raise _ => st' = (db, total_updated, total_pruned)
        | Tiering.Ok events =>
            if forallb sized events
            then
              st'
              = ((fold_left (run_event self time_time org)
                    (Handlers.event <$> events) (db, 0)).1,
                 total_updated
                 + 2 * Z.of_nat
                         (length
                            ((Handlers.event <$> events) ≫= event_pairs)),
                 total_pruned)
            else
              st'
              = ((fold_left (run_event self time_time org)
                    (before_null events) (db, 0)).1,
                 total_updated, total_pruned)
        end)
  /\ (forall (self : Config) (time_time : Z) (total_duration : Q)
             (cutoff : Z -> Tiering.result Z)
             (pack_events : list Handlers.StoredEvent) (db : TagEdges)
             (org_id : option string) (hours : option Z),
        updated
          (Handlers.run self time_time total_duration cutoff pack_events db
             org_id hours).2
        = foldr Z.add 0
            (org_count self cutoff pack_events hours
               <$> select_orgs (Handlers.event <$> pack_events) org_id)).
Proof.
  split; [|split; [|split; [|split]]].
  - reflexivity.
  - intros self time_time org db n event A B Htags HAB accepted st.
    subst st accepted.
    rewrite (run_event_two_tags self time_time org db n event A B Htags).
    cbn [fst snd].
    assert (Hne : (org, A) <> (org, B)) by congruence.
    split; [done|]. split; [|split].
    + rewrite update_direction_other by done.
      apply update_direction_lookup.
    + rewrite update_direction_lookup. f_equal.
      apply written_ext. by apply update_direction_other.
    + intros key HA HB. by rewrite !update_direction_other.
  - intros self time_time db org src dst accepted
      current_edges current_weight new_weight.
    split; [apply update_edge_weight_formula|]. split.
    + intros e He. unfold written in He.
      apply list_elem_of_fmap in He as ([to_tag weight] & -> & Hitem).
      apply elem_of_slice_to in Hitem.
      apply (proj1 (elem_of_sorted_desc _ _)) in Hitem.
      split; [exact Hitem|reflexivity].
    + by apply written_contains.
  - intros. apply run_org_cases.
  - intros. apply run_handled_updated.
Qed.

(** The event of [test_bidirectional_edges], on the seeded collection. *)
Lemma both_directions_updated_witness :
  let st := run_event test_config pass_time "test-org" (seeded_db, 0)
              accepted_event in
  st.2 = 0 + 2
  /\ st.1 !! ("test-org", "python")
     = Some (written test_config pass_time seeded_db "test-org"
               "python" "fastapi" true)
  /\ st.1 !! ("test-org", "fastapi")
     = Some (written test_config pass_time seeded_db "test-org"
               "fastapi" "python" true)
  /\ (forall key : string * string,
        key <> ("test-org", "python") -> key <> ("test-org", "fastapi") ->
        st.1 !! key = seeded_db !! key).
Proof.
  apply (proj1 (proj2 both_directions_updated)
           test_config pass_time "test-org" seeded_db 0 accepted_event
           "python" "fastapi").
  - reflexivity.
  - discriminate.
Defined.

(** C9. Whatever the organisation scope, the events and the stored
  edges, the summary [run] returns has [pruned = 0]; so it has for the
  pass of [test_top_m_pruning], which cuts the edge towards
  [web_development] off the document of [python]. *)
Theorem run_reports_no_pruning :
  (forall (self : Config) (time_time : Z) (total_duration : Q)
          (pack_events : list PackEvent) (db : TagEdges)
          (org_id : option string) (hours : option Z),
      pruned (run self time_time total_duration pack_events db org_id hours).2
      = 0)
  /\ (let result := run test_config pass_time 0 [accepted_event] seeded_db
                      (Some "test-org") (Some 24) in
      stored_targets seeded_db "test-org" "python"
      = ["fastapi"; "machine_learning"; "data_science"; "web_development"]
      /\ stored_targets (result.1) "test-org" "python"
         = ["fastapi"; "machine_learning"; "data_science"]
      /\ pruned (result.2) = 0).
Proof.
  split.
  - intros. apply run_pruned.
  - split; [|split].
    + by vm_compute.
    + by vm_compute.
    + by vm_compute.
Qed.

End Directions.

(** ** Events without an [accepted] field *)

Module AbsentAccepted.

Import EdgeLearning EdgeLearningFacts TopM TopMExamples Pairs Pass.
Local Open Scope Z_scope.

(** The event with its [accepted] field set. *)
Definition set_accepted (value : option bool) (event : PackEvent)
    : PackEvent :=
  {| orgId := orgId event; projectId := projectId event;
     packId := packId event; accepted := value; tags := tags event;
     itemIds := itemIds event; event_ts := event_ts event |}.

(** The event with an absent [accepted] written out as [False]. *)
Definition as_rejected (event : PackEvent) : PackEvent :=
  match accepted event with
  | None => set_accepted (Some false) event
  | Some _ => event
  end.

(** The event of [test_ema_math_with_rejection], its [accepted] field
  left out. *)
Definition unlabelled_event : PackEvent :=
  {| orgId := "test-org"; projectId := "test-project"; packId := "pack-1";
     accepted := None; tags := Some ["python"; "fastapi"];
     itemIds := ["mem-1"]; event_ts := event_time |}.

Section WithJob.

Variable self : Config.
Variable time_time : Z.
Variable total_duration : Q.

Lemma run_event_as_rejected (org : string) (st : TagEdges * Z)
    (event : PackEvent) :
  run_event self time_time org st (as_rejected event)
  = run_event self time_time org st event.
Proof. unfold as_rejected. by destruct event as [? ? ? [[]|] ? ? ?]. Qed.

Lemma run_events_as_rejected (org : string) (events : list PackEvent)
    (st : TagEdges * Z) :
  fold_left (run_event self time_time org) (as_rejected <$> events) st
  = fold_left (run_event self time_time org) events st.
Proof.
  revert st. induction events as [|event events IH]; intros st; [done|].
  cbn [fmap list_fmap fold_left]. by rewrite run_event_as_rejected, IH.
Qed.

Lemma orgId_as_rejected (event : PackEvent) :
  orgId (as_rejected event) = orgId event.
Proof. unfold as_rejected. by destruct (accepted event). Qed.

Lemma event_ts_as_rejected (event : PackEvent) :
  event_ts (as_rejected event) = event_ts event.
Proof. unfold as_rejected. by destruct (accepted event). Qed.

Lemma recent_as_rejected (pack_events : list PackEvent) (org : string)
    (hours : option Z) :
  _get_recent_pack_events self time_time (as_rejected <$> pack_events)
    org hours
  = as_rejected
      <$> _get_recent_pack_events self time_time pack_events org hours.
Proof.
  unfold _get_recent_pack_events.
  induction pack_events as [|event events IH]; [done|].
  cbn [fmap list_fmap List.filter].
  rewrite orgId_as_rejected, event_ts_as_rejected.
  destruct (_ && _); cbn [fmap list_fmap]; by f_equal.
Qed.

Lemma select_orgs_as_rejected (pack_events : list PackEvent)
    (org_id : option string) :
  select_orgs (as_rejected <$> pack_events) org_id
  = select_orgs pack_events org_id.
Proof.
  assert (H : orgId <$> (as_rejected <$> pack_events) = orgId <$> pack_events).
  { rewrite <- list_fmap_compose. apply list_fmap_ext.
    intros i event _. apply orgId_as_rejected. }
  unfold select_orgs. by rewrite H.
Qed.

Lemma run_org_as_rejected (pack_events : list PackEvent) (hours : option Z)
    (st : TagEdges * Z * Z) (org : string) :
  run_org self time_time (as_rejected <$> pack_events) hours st org
  = run_org self time_time pack_events hours st org.
Proof.
  destruct st as [[db total_updated] total_pruned]. unfold run_org.
  rewrite recent_as_rejected.
  destruct (_get_recent_pack_events _ _ _ _ _) as [|event events]; [done|].
  change (as_rejected <$> event :: events)
    with (as_rejected <$> (event :: events)).
  by rewrite run_events_as_rejected.
Qed.

Lemma run_as_rejected (pack_events : list PackEvent) (db : TagEdges)
    (org_id : option string) (hours : option Z) :
  run self time_time total_duration (as_rejected <$> pack_events) db
    org_id hours
  = run self time_time total_duration pack_events db org_id hours.
Proof.
  unfold run. rewrite select_orgs_as_rejected.
  generalize (db, 0, 0) as st.
  induction (select_orgs pack_events org_id) as [|org orgs IH]; intros st.
  - done.
  - cbn [fold_left]. rewrite run_org_as_rejected. apply IH.
Qed.

End WithJob.

(** C10. An event whose [accepted] field is absent is processed as a
  rejection.  For an event with [tags = [A, B]] (two different tags) and
  no [accepted] field, the documents of [A] and of [B] are the ones the
  update writes with [accepted = False]: the weight towards the other
  tag becomes the two-stage formula with the reward [-d] applied to the
  stored weight, and is stored with that value whenever the neighbours
  fit in [maxEdgesPerTag].  In general every pair of such an event is
  updated with [accepted = False], and the event, as well as a whole
  pass, gives the same collection and the same summary as with the
  field written out as [False].  On the seeded collection the event of
  [test_ema_math_with_rejection] without its [accepted] field lowers the
  weight of [python -> fastapi] from [0.8] to [0.798]
  ([0.9 * 0.8 + 0.1 * 0.78]), which is not what an accepted event
  gives. *)
Theorem absent_accepted_is_rejection :
  (forall (self : Config) (time_time : Z) (org : string) (db : TagEdges)
          (n : Z) (event : PackEvent) (A B : string),
      accepted event = None ->
      tags event = Some [A; B] ->
      A <> B ->
      let st := run_event self time_time org (db, n) event in
      st.1 !! (org, A) = Some (written self time_time db org A B false)
      /\ st.1 !! (org, B) = Some (written self time_time db org B A false)
      /\ st.2 = n + 2)
  /\ (forall (self : Config) (time_time : Z) (db : TagEdges)
             (org src dst : string),
        let current_edges := _get_current_edges db org src in
        let current_weight := dict_get current_edges dst 0 in
        let new_weight := _update_edge_weight self current_weight false in
        (new_weight
         == spec_clip
              ((1 - eta self) * current_weight
               + eta self
                 * spec_clip (current_weight + - d self) 0 (w_max self))
              0 (w_max self))%Q
        /\ (Z.of_nat (length (dict_set current_edges dst new_weight))
            <= max_edges_per_tag self ->
            edge_of time_time (dst, new_weight)
            ∈ written self time_time db org src dst false))
  /\ (forall (self : Config) (time_time : Z) (org : string)
             (st : TagEdges * Z) (event : PackEvent),
        accepted event = None ->
        run_event self time_time org st event
        = fold_left (run_pair self time_time org false) (event_pairs event) st
        /\ run_event self time_time org st event
           = run_event self time_time org st
               (set_accepted (Some false) event))
  /\ (forall (self : Config) (time_time : Z) (total_duration : Q)
             (pack_events : list PackEvent) (db : TagEdges)
             (org_id : option string) (hours : option Z),
        run self time_time total_duration pack_events db org_id hours
        = run self time_time total_duration (as_rejected <$> pack_events) db
            org_id hours)
  /\ ((run_event test_config pass_time "test-org" (seeded_db, 0)
         unlabelled_event).1 !! ("test-org", "python")
      = Some (edge_of pass_time
                <$> [("fastapi", _update_edge_weight test_config 0.8 false);
                     ("machine_learning", 0.6%Q); ("data_science", 0.4%Q)])
      /\ (_update_edge_weight test_config 0.8 false == 0.798)%Q
      /\ (_update_edge_weight test_config 0.8 false < 0.8)%Q
      /\ (0.8 < _update_edge_weight test_config 0.8 true)%Q).
Proof.
  split; [|split; [|split; [|split]]].
  - intros self time_time org db n event A B Habsent Htags HAB st.
    subst st.
    rewrite (run_event_two_tags self time_time org db n event A B Htags).
    rewrite Habsent. cbn [default fst snd from_option id].
    assert (Hne : (org, A) <> (org, B)) by congruence.
    split; [|split; [|done]].
    + rewrite update_direction_other by done.
      apply update_direction_lookup.
    + rewrite update_direction_lookup. f_equal.
      apply written_ext. by apply update_direction_other.
  - intros self time_time db org src dst
      current_edges current_weight new_weight.
    split.
    + apply (update_edge_weight_formula self current_weight false).
    + by apply written_contains.
  - intros self time_time org st event Habsent. split.
    + by rewrite run_event_pairs, Habsent.
    + rewrite <- (run_event_as_rejected self time_time org st event).
      unfold as_rejected. by rewrite Habsent.
  - intros. symmetry. apply run_as_rejected.
  - split; [by vm_compute|]. split; [reflexivity|].
    split; reflexivity.
Qed.

Lemma absent_accepted_is_rejection_witness :
  let st := run_event test_config pass_time "test-org" (seeded_db, 0)
              unlabelled_event in
  st.1 !! ("test-org", "python")
  = Some (written test_config pass_time seeded_db "test-org"
            "python" "fastapi" false)
  /\ st.1 !! ("test-org", "fastapi")
     = Some (written test_config pass_time seeded_db "test-org"
               "fastapi" "python" false)
  /\ st.2 = 0 + 2.
Proof.
  apply (proj1 absent_accepted_is_rejection test_config pass_time "test-org"
           seeded_db 0 unlabelled_event "python" "fastapi").
  - reflexivity.
  - reflexivity.
  - discriminate.
Defined.

End AbsentAccepted.

(** ** Tiers *)

Module TierBands.

Import Tiering PyFacts.
Local Open Scope Q_scope.

Lemma determine_tier_hot (h : Q) : 5 <= h -> determine_tier h = 1%Z.
Proof.
  intros H. unfold determine_tier.
  destruct (Py.geb h 5.0) eqn:E; [done|].
  apply geb_lt in E. lra.
Qed.

Lemma determine_tier_warm (h : Q) : 1 <= h -> h < 5 -> determine_tier h = 2%Z.
Proof.
  intros H1 H5. unfold determine_tier.
  destruct (Py.geb h 5.0) eqn:E5; [apply geb_ge in E5; lra|].
  destruct (Py.geb h 1.0) eqn:E1; [done|].
  apply geb_lt in E1. lra.
Qed.

Lemma determine_tier_cold (h : Q) : h < 1 -> determine_tier h = 3%Z.
Proof.
  intros H. unfold determine_tier.
  destruct (Py.geb h 5.0) eqn:E5; [apply geb_ge in E5; lra|].
  destruct (Py.geb h 1.0) eqn:E1; [apply geb_ge in E1; lra|done].
Qed.

(** C5. The tier is a function of the hotness score alone: a score of at
  least [5.0] gives tier 1, a score of at least [1.0] and below [5.0]
  tier 2, a score below [1.0] tier 3, each band containing its lower
  bound; so [5.0] gives 1, [4.999] gives 2, [1.0] gives 2 and [0.999]
  gives 3, and equal scores get equal tiers. *)
Theorem determine_tier_bands :
  (forall h : Q, 5 <= h -> determine_tier h = 1%Z)
  /\ (forall h : Q, 1 <= h -> h < 5 -> determine_tier h = 2%Z)
  /\ (forall h : Q, h < 1 -> determine_tier h = 3%Z)
  /\ (forall h1 h2 : Q, h1 == h2 -> determine_tier h1 = determine_tier h2)
  /\ determine_tier 5.0 = 1%Z
  /\ determine_tier 4.999 = 2%Z
  /\ determine_tier 1.0 = 2%Z
  /\ determine_tier 0.999 = 3%Z.
Proof.
  split; [exact determine_tier_hot|].
  split; [exact determine_tier_warm|].
  split; [exact determine_tier_cold|].
  split; [|by repeat split].
  intros h1 h2 Heq.
  destruct (Qlt_le_dec h1 1) as [Hcold|Hge1].
  - rewrite !determine_tier_cold; [done|lra|lra].
  - destruct (Qlt_le_dec h1 5) as [Hwarm|Hhot].
    + rewrite !determine_tier_warm; [done|lra|lra|lra|lra].
    + rewrite !determine_tier_hot; [done|lra|lra].
Qed.

Lemma determine_tier_bands_witness :
  determine_tier 7.25 = 1%Z
  /\ determine_tier 2.5 = 2%Z
  /\ determine_tier 0.25 = 3%Z
  /\ determine_tier (10 # 2) = determine_tier 5.
Proof.
  destruct determine_tier_bands as (Hhot & Hwarm & Hcold & Hfun & _).
  split; [apply Hhot; lra|].
  split; [apply Hwarm; lra|].
  split; [apply Hcold; lra|].
  apply Hfun. reflexivity.
Defined.

End TierBands.

(** ** The rebalancing sweep *)

(** ** The pages of a sweep *)

Module PagingLaws.

Import Tiering.
Local Open Scope Z_scope.

Section Pages.

Variable utcnow : Z.
Variable fromisoformat : string -> option Z.
Variable int_of_str : string -> option Z.
Variable ln : Z -> Q.
Variable round3 : Q -> Q.
Variable update_tag_tier : string -> Z -> bool.
Variable fetch : nat -> list TagRecord.

Local Abbreviation step :=
  (rebalance_tag utcnow fromisoformat int_of_str ln round3 update_tag_tier).
Local Abbreviation sweep :=
  (Paging.sweep_pages utcnow fromisoformat int_of_str ln round3
     update_tag_tier fetch).

Lemma sweep_pages_stops (count fuel page : nat) (st : Sweep) :
  (forall i : nat, (i < count)%nat -> fetch (page + i) <> []) ->
  fetch (page + count) = [] ->
  (count < fuel)%nat ->
  sweep fuel page st
  = Some (fold_left step (concat (fetch <$> seq page count)) st).
Proof.
  revert fuel page st.
  induction count as [|count IH]; intros fuel page st Hfull Hempty Hfuel.
  - destruct fuel as [|fuel]; [lia|]. cbn [Paging.sweep_pages].
    rewrite Nat.add_0_r in Hempty. by rewrite Hempty.
  - destruct fuel as [|fuel]; [lia|]. cbn [Paging.sweep_pages].
    pose proof (Hfull 0%nat ltac:(lia)) as Hfirst.
    rewrite Nat.add_0_r in Hfirst.
    destruct (fetch page) as [|t ts] eqn:E; [done|].
    rewrite (IH fuel (S page)).
    + cbn [seq fmap list_fmap concat]. by rewrite E, fold_left_app.
    + intros i Hi. replace (S page + i)%nat with (page + S i)%nat by lia.
      apply Hfull. lia.
    + by replace (S page + count)%nat with (page + S count)%nat by lia.
    + lia.
Qed.

Lemma sweep_pages_goes_on (fuel page : nat) (st : Sweep) :
  (forall page : nat, fetch page <> []) ->
  sweep fuel page st = None.
Proof.
  intros Hfull. revert page st.
  induction fuel as [|fuel IH]; intros page st; [done|].
  cbn [Paging.sweep_pages].
  pose proof (Hfull page) as Hpage.
  destruct (fetch page) as [|t ts]; [done|]. apply IH.
Qed.

Lemma sweep_pages_ends (count fuel page : nat) (st : Sweep) :
  fetch (page + count) = [] ->
  (count < fuel)%nat ->
  is_Some (sweep fuel page st).
Proof.
  revert fuel page st.
  induction count as [|count IH]; intros fuel page st Hempty Hfuel.
  - destruct fuel as [|fuel]; [lia|]. cbn [Paging.sweep_pages].
    rewrite Nat.add_0_r in Hempty. by rewrite Hempty.
  - destruct fuel as [|fuel]; [lia|]. cbn [Paging.sweep_pages].
    destruct (fetch page) as [|t ts]; [done|].
    apply IH; [|lia].
    by replace (S page + count)%nat with (page + S count)%nat by lia.
Qed.

End Pages.

(** Over a view that does not change and is always served, the pages
  fetched are the slices of the view. *)
Lemma sweep_pages_of_view
    (utcnow : Z) (fromisoformat int_of_str : string -> option Z)
    (ln : Z -> Q) (round3 : Q -> Q) (update_tag_tier : string -> Z -> bool)
    (tag_view : list TagRecord) (fuel page : nat) (st : Sweep) :
  Paging.sweep_pages utcnow fromisoformat int_of_str ln round3
    update_tag_tier
    (fun page => get_tags_for_rebalancing tag_view page 100) fuel page st
  = sweep_pages utcnow fromisoformat int_of_str ln round3 update_tag_tier
      tag_view fuel page st.
Proof.
  revert page st. induction fuel as [|fuel IH]; intros page st; [done|].
  cbn [Paging.sweep_pages sweep_pages].
  destruct (get_tags_for_rebalancing tag_view page 100); [done|]. apply IH.
Qed.

End PagingLaws.

Module Rebalance.

Import Tiering PagingLaws.
Local Open Scope Z_scope.

Section WithService.

Variable utcnow : Z.
Variable fromisoformat : string -> option Z.
Variable int_of_str : string -> option Z.
Variable ln : Z -> Q.
Variable round3 : Q -> Q.
Variable update_tag_tier : string -> Z -> bool.
Variable tag_view : list TagRecord.

Local Abbreviation body :=
  (rebalance_tag_body utcnow fromisoformat int_of_str ln round3
     update_tag_tier).
Local Abbreviation step :=
  (rebalance_tag utcnow fromisoformat int_of_str ln round3 update_tag_tier).

(** *** Dates *)

Lemma safe_parse_datetime_missing :
  safe_parse_datetime fromisoformat PyNone = None.
Proof. done. Qed.

Lemma safe_parse_datetime_unparseable (s : string) :
  fromisoformat (remove_Z s) = None ->
  safe_parse_datetime fromisoformat (PyStr s) = None.
Proof.
  intros H. unfold safe_parse_datetime.
  destruct (negb (truthy (PyStr s))); [done|]. by rewrite H.
Qed.

(** A value that is neither a string nor a datetime is no date. *)
Lemma safe_parse_datetime_other (value : pyvalue) :
  (forall s, value <> PyStr s) -> (forall t, value <> PyDatetime t) ->
  safe_parse_datetime fromisoformat value = None.
Proof.
  intros Hs Ht. unfold safe_parse_datetime.
  destruct (negb (truthy value)); [done|].
  destruct value; try done.
  - by destruct (Hs s).
  - by destruct (Ht t).
Qed.

(** A record without a usable [createdAt] or [lastUsedAt] changes
  nothing, whatever its other fields hold. *)
Lemma rebalance_tag_skips (st : Sweep) (tag_data : TagRecord) :
  safe_parse_datetime fromisoformat (get (metrics tag_data) "createdAt") = None
  \/ safe_parse_datetime fromisoformat (get (metrics tag_data) "lastUsedAt")
     = None ->
  step st tag_data = st.
Proof.
  intros H. unfold rebalance_tag, rebalance_tag_body.
  destruct (safe_get_int int_of_str (get (metrics tag_data) "useCount") 1)
    as [use_count|e]; simpl; [|done].
  destruct H as [-> | ->]; [done|].
  by destruct (safe_parse_datetime _ (get _ "createdAt")).
Qed.

(** The sweep goes on with the remaining records of the page. *)
Lemma rebalance_page_skips (st : Sweep) (tag_data : TagRecord)
    (rest : list TagRecord) :
  safe_parse_datetime fromisoformat (get (metrics tag_data) "createdAt") = None
  \/ safe_parse_datetime fromisoformat (get (metrics tag_data) "lastUsedAt")
     = None ->
  fold_left step (tag_data :: rest) st = fold_left step rest st.
Proof. intros H. cbn [fold_left]. by rewrite rebalance_tag_skips. Qed.

(** *** The pass does not fail *)

Lemma sweep_pages_total (fuel page : nat) (st : Sweep) :
  (length tag_view <= (page + fuel) * 100)%nat ->
  is_Some
    (sweep_pages utcnow fromisoformat int_of_str ln round3 update_tag_tier
       tag_view (S fuel) page st).
Proof.
  revert page st. induction fuel as [|fuel IH]; intros page st Hlen.
  - cbn [sweep_pages]. unfold get_tags_for_rebalancing.
    rewrite drop_ge by lia. by rewrite take_nil.
  - cbn [sweep_pages].
    destruct (get_tags_for_rebalancing tag_view page 100) as [|t ts]; [done|].
    apply IH. lia.
Qed.

Lemma rebalance_all_tags_total (is_connected : bool) :
  is_Some
    (rebalance_all_tags utcnow fromisoformat int_of_str ln round3
       update_tag_tier tag_view is_connected).
Proof.
  unfold rebalance_all_tags. destruct is_connected; simpl; [|done].
  apply sweep_pages_total. lia.
Qed.

(** *** [useCount] *)

Lemma safe_get_int_int (n default : Z) :
  safe_get_int int_of_str (PyInt n) default = Ok n.
Proof. done. Qed.

Lemma safe_get_int_missing (default : Z) :
  safe_get_int int_of_str PyNone default = Ok default.
Proof. done. Qed.

Lemma safe_get_int_bad_string (s : string) (default : Z) :
  int_of_str s = None ->
  safe_get_int int_of_str (PyStr s) default = Ok default.
Proof. intros H. unfold safe_get_int, py_int. by rewrite H. Qed.

Lemma safe_get_int_nan (default : Z) :
  safe_get_int int_of_str (PyFloat NaN) default = Ok default.
Proof. done. Qed.

(** The conversion returns for every value but an infinite float. *)
Lemma safe_get_int_returns (value : pyvalue) (default : Z) :
  (forall negative, value <> PyFloat (Inf negative)) ->
  exists n, safe_get_int int_of_str value default = Ok n.
Proof.
  intros Hinf. destruct value as [| b | n | [q| |negative] | s | t |];
    unfold safe_get_int, py_int; eauto.
  - by destruct (Hinf negative).
  - destruct (int_of_str s); eauto.
Qed.

Lemma safe_get_int_infinite (negative : bool) (default : Z) :
  safe_get_int int_of_str (PyFloat (Inf negative)) default
  = Raise OverflowError.
Proof. done. Qed.

End WithService.

(** A record as the aggregation behind
  [db_service.get_tags_for_rebalancing] builds it: [useCount] is a count
  of documents ([$sum: 1]), [meta.tier] is [2], [lastPromotedAt] is
  [None]; the two dates are what the grouped documents hold. *)
Definition view_record (name : string) (use_count : Z)
    (created_at last_used_at : pyvalue) : TagRecord :=
  {| tag := Some name;
     metrics := [("useCount", PyInt use_count);
                 ("createdAt", created_at);
                 ("lastUsedAt", last_used_at);
                 ("lastPromotedAt", PyNone)];
     meta := [("tier", PyInt 2)] |}.

(** A record with both dates in order and a [useCount] that is no number
  at all. *)
Definition missing_count_record (created_at last_used_at : Z) : TagRecord :=
  {| tag := Some "python";
     metrics := [("useCount", PyNone);
                 ("createdAt", PyDatetime created_at);
                 ("lastUsedAt", PyDatetime last_used_at);
                 ("lastPromotedAt", PyNone)];
     meta := [("tier", PyInt 2)] |}.

(** The record with its [useCount] field set. *)
Definition with_use_count (value : pyvalue) (tag_data : TagRecord)
    : TagRecord :=
  {| tag := tag tag_data;
     metrics := ("useCount", value) :: metrics tag_data;
     meta := meta tag_data |}.

Definition fresh_sweep : Sweep :=
  {| total_processed := 0; total_rebalanced := 0; tier_updates := [] |}.

(** A [useCount] whose conversion fails in the handled way is read as
  the default. *)
Lemma safe_get_int_defaults (int_of_str : string -> option Z)
    (value : pyvalue) (default : Z) (e : pyexn) :
  py_int int_of_str value = Raise e ->
  e <> OverflowError ->
  safe_get_int int_of_str value default = Ok default.
Proof.
  intros Hfail He. unfold safe_get_int.
  destruct value as [| b | n | [q| |negative] | s | t |]; try done.
  - cbn in Hfail. congruence.
  - cbn in Hfail |- *. by destruct (int_of_str s).
Qed.

(** C8. A record of the sweep whose [createdAt] or [lastUsedAt] is
  missing ([None]), is a string that [datetime.fromisoformat] rejects,
  or is neither a string nor a datetime, is skipped: it leaves the
  counters and the tier updates as they are, and the sweep goes on with
  the remaining records and ends at the first page that comes back
  empty.  The [useCount] the view
  computes, a count, is read as it is; a [useCount] whose conversion
  [int(value)] fails with [ValueError] or [TypeError] (a missing
  field, a value of another type, a string that is no number, a
  not-a-number float) is read as [1], and its record is handled as the
  record with [useCount = 1]. *)
Theorem unusable_fields_skipped_or_defaulted :
  forall (utcnow : Z) (fromisoformat int_of_str : string -> option Z)
         (ln : Z -> Q) (round3 : Q -> Q)
         (update_tag_tier : string -> Z -> bool),
    let parse := safe_parse_datetime fromisoformat in
    let body :=
      rebalance_tag_body utcnow fromisoformat int_of_str ln round3
        update_tag_tier in
    let step :=
      rebalance_tag utcnow fromisoformat int_of_str ln round3
        update_tag_tier in
    (parse PyNone = None
     /\ (forall s : string,
           fromisoformat (remove_Z s) = None -> parse (PyStr s) = None)
     /\ (forall value : pyvalue,
           (forall s, value <> PyStr s) -> (forall t, value <> PyDatetime t) ->
           parse value = None))
    /\ (forall (st : Sweep) (tag_data : TagRecord) (rest : list TagRecord),
          parse (get (metrics tag_data) "createdAt") = None
          \/ parse (get (metrics tag_data) "lastUsedAt") = None ->
          step st tag_data = st
          /\ fold_left step (tag_data :: rest) st = fold_left step rest st)
    /\ (forall (fetch : nat -> list TagRecord) (empty_page fuel : nat)
               (is_connected : bool),
          fetch empty_page = [] ->
          (empty_page < fuel)%nat ->
          is_Some
            (Paging.rebalance_all_tags utcnow fromisoformat int_of_str ln
               round3 update_tag_tier fetch fuel is_connected))
    /\ (forall (name : string) (use_count : Z)
               (created_at last_used_at : pyvalue),
          safe_get_int int_of_str
            (get (metrics (view_record name use_count created_at
                             last_used_at)) "useCount") 1
          = Ok use_count)
    /\ (forall (value : pyvalue) (e : pyexn),
          py_int int_of_str value = Raise e ->
          e <> OverflowError ->
          safe_get_int int_of_str value 1 = Ok 1)
    /\ (forall (st : Sweep) (tag_data : TagRecord) (e : pyexn),
          py_int int_of_str (get (metrics tag_data) "useCount") = Raise e ->
          e <> OverflowError ->
          body st tag_data = body st (with_use_count (PyInt 1) tag_data)).
Proof.
  intros utcnow fromisoformat int_of_str ln round3 update_tag_tier
    parse body step.
  split; [|split; [|split; [|split; [|split]]]].
  - split; [done|]. split.
    + apply safe_parse_datetime_unparseable.
    + apply safe_parse_datetime_other.
  - intros st tag_data rest H. split.
    + by apply rebalance_tag_skips.
    + by apply rebalance_page_skips.
  - intros fetch empty_page fuel is_connected Hempty Hfuel.
    unfold Paging.rebalance_all_tags. destruct is_connected; [|done].
    cbn [negb]. by apply (sweep_pages_ends _ _ _ _ _ _ _ empty_page).
  - done.
  - intros value e. apply safe_get_int_defaults.
  - intros st tag_data e Hfail He. subst body.
    unfold rebalance_tag_body.
    rewrite (safe_get_int_defaults int_of_str _ 1 e Hfail He).
    reflexivity.
Qed.

(** A record of the view whose [createdAt] is missing. *)
Lemma unusable_fields_skipped_or_defaulted_witness :
  let step :=
    rebalance_tag 1700000000 (fun _ => None) (fun _ => None)
      (fun _ => 2.5%Q) (fun q => q) (fun _ _ => true) in
  let tag_data := view_record "python" 4 PyNone (PyDatetime 1699000000) in
  step fresh_sweep tag_data = fresh_sweep
  /\ fold_left step
       [tag_data; missing_count_record 1698000000 1699000000] fresh_sweep
     = fold_left step [missing_count_record 1698000000 1699000000]
         fresh_sweep.
Proof.
  apply (proj1 (proj2 (unusable_fields_skipped_or_defaulted 1700000000
                         (fun _ => None) (fun _ => None) (fun _ => 2.5%Q)
                         (fun q => q) (fun _ _ => true)))
           fresh_sweep
           (view_record "python" 4 PyNone (PyDatetime 1699000000))
           [missing_count_record 1698000000 1699000000]).
  left. reflexivity.
Defined.

(** With a clock at day 20, a tag created on day 10 and used on day 19,
  and the natural logarithm rounded to [2.5]: the record without a count
  is processed, with the score of a single use
  ([1 * (1 / 2) * 1 / 2.5 = 0.2], tier 3). *)
Example missing_use_count_on_a_sweep :
  let day := 86400 in
  fold_left
    (rebalance_tag (20 * day) (fun _ => None) (fun _ => None)
       (fun _ => 2.5%Q) (fun q => q) (fun _ _ => true))
    [missing_count_record (10 * day) (19 * day)] fresh_sweep
  = {| total_processed := 1; total_rebalanced := 1;
       tier_updates := [("python", 3)] |}.
Proof. by vm_compute. Qed.

End Rebalance.

(** * Further properties of the code *)

(** ** The clamp and the update rule *)

Module UpdateRuleLaws.

Import EdgeLearning EdgeLearningFacts.
Local Open Scope Q_scope.

(** X1. [_clip_weight] does nothing to a weight it has already clipped,
  and keeps the order of weights. *)
Theorem clip_weight_idempotent_monotone (self : Config) :
  (forall x : Q, _clip_weight self (_clip_weight self x) == _clip_weight self x)
  /\ (forall x y : Q, x <= y -> _clip_weight self x <= _clip_weight self y).
Proof.
  split; [|apply clip_weight_monotone].
  intros x.
  destruct (clip_weight_cases self x) as [[E H]|[[E H]|[E H]]];
    rewrite E;
    destruct (clip_weight_cases self 0) as [[E0 H0]|[[E0 H0]|[E0 H0]]];
    destruct (clip_weight_cases self (w_max self))
      as [[Ew Hw]|[[Ew Hw]|[Ew Hw]]];
    destruct (clip_weight_cases self x) as [[Ex Hx]|[[Ex Hx]|[Ex Hx]]];
    rewrite ?E0, ?Ew, ?Ex; lra.
Qed.

Lemma clip_weight_monotone_witness :
  _clip_weight test_config 0.25 <= _clip_weight test_config 1.75.
Proof.
  apply (proj2 (clip_weight_idempotent_monotone test_config) 0.25 1.75).
  lra.
Defined.

(** X2. For a learning rate in [[0, 1]] the update keeps the order of
  weights: of two edges that see the same event, the heavier one is
  still at least as heavy afterwards. *)
Theorem update_edge_weight_monotone (self : Config) (w1 w2 : Q)
    (accepted : bool) :
  0 <= eta self <= 1 ->
  w1 <= w2 ->
  _update_edge_weight self w1 accepted <= _update_edge_weight self w2 accepted.
Proof.
  intros Heta Hw. unfold _update_edge_weight.
  apply clip_weight_monotone.
  set (reward := if accepted then r self else - d self).
  assert (Ht : _clip_weight self (w1 + reward) <= _clip_weight self (w2 + reward))
    by (apply clip_weight_monotone; lra).
  set (t1 := _clip_weight self (w1 + reward)) in *.
  set (t2 := _clip_weight self (w2 + reward)) in *.
  assert (H1 : 0 <= (1 - eta self) * (w2 - w1))
    by (apply Qmult_le_0_compat; lra).
  assert (H2 : 0 <= eta self * (t2 - t1))
    by (apply Qmult_le_0_compat; lra).
  lra.
Qed.

Lemma update_edge_weight_monotone_witness :
  _update_edge_weight test_config 0.25 true
  <= _update_edge_weight test_config 0.75 true.
Proof.
  apply (update_edge_weight_monotone test_config 0.25 0.75 true);
    cbn; lra.
Defined.

End UpdateRuleLaws.

(** ** Neighbour maps, sorting and the cut *)

Module NeighbourLaws.

Import EdgeLearning PyFacts TopM TopMExamples.
Local Open Scope Q_scope.

(** Reading a neighbour map after [d[key] = value]: the key that was
  set reads [value], every other key reads what it read before. *)
Lemma dict_get_set (edges : Neighbours) (key key' : string)
    (value default : Q) :
  dict_get (dict_set edges key value) key' default
  = if String.eqb key key' then value else dict_get edges key' default.
Proof.
  induction edges as [|[k v] edges IH]; simpl.
  - by destruct (String.eqb_spec key key').
  - destruct (String.eqb_spec k key) as [->|Hk]; simpl.
    + by destruct (String.eqb_spec key key').
    + rewrite IH.
      destruct (String.eqb_spec k key') as [->|Hk']; [|done].
      by destruct (String.eqb_spec key key').
Qed.

Lemma dict_set_keys (edges : Neighbours) (key : string) (value : Q) :
  (dict_set edges key value).*1
  = if decide (key ∈ edges.*1) then edges.*1 else edges.*1 ++ [key].
Proof.
  induction edges as [|[k v] edges IH].
  - cbn [dict_set]. rewrite decide_False; [done|]. apply not_elem_of_nil.
  - cbn [dict_set]. destruct (String.eqb_spec k key) as [->|Hk].
    + rewrite decide_True; [reflexivity|]. cbn. apply elem_of_cons. by left.
    + cbn [fmap list_fmap fst]. rewrite IH.
      destruct (decide (key ∈ edges.*1)) as [Hin|Hin].
      * rewrite decide_True; [done|]. apply elem_of_cons. by right.
      * rewrite decide_False; [done|].
        intros [?|?]%elem_of_cons; congruence.
Qed.

Lemma dict_set_fresh (edges : Neighbours) (key : string) (value : Q) :
  key ∉ edges.*1 -> dict_set edges key value = edges ++ [(key, value)].
Proof.
  induction edges as [|[k v] edges IH]; simpl; intros Hkey; [done|].
  apply not_elem_of_cons in Hkey as [Hne Hkey].
  destruct (String.eqb_spec k key) as [->|_]; [done|].
  by rewrite IH.
Qed.

Lemma dict_set_NoDup (edges : Neighbours) (key : string) (value : Q) :
  NoDup edges.*1 -> NoDup (dict_set edges key value).*1.
Proof.
  intros Hnd. rewrite dict_set_keys.
  destruct (decide (key ∈ edges.*1)); [done|].
  apply NoDup_app. split; [done|]. split; [|apply NoDup_singleton].
  intros x Hx ->%list_elem_of_singleton. done.
Qed.

Lemma get_current_edges_NoDup (db : TagEdges) (org_id tag : string) :
  NoDup (_get_current_edges db org_id tag).*1.
Proof.
  unfold _get_current_edges.
  destruct (db !! (org_id, tag)) as [doc_edges|]; [|constructor].
  assert (H : forall acc : Neighbours,
             NoDup acc.*1 ->
             NoDup (fold_left
                      (fun edges edge => dict_set edges (to edge) (w edge))
                      doc_edges acc).*1).
  { induction doc_edges as [|e doc_edges IH]; intros acc Hacc; [done|].
    simpl. apply IH. by apply dict_set_NoDup. }
  apply H. constructor.
Qed.

(** X5. Whatever a stored document holds, also the same neighbour more
  than once, the neighbour map read from it names every neighbour
  once; an absent document reads as the empty map. *)
Theorem get_current_edges_unique_keys (db : TagEdges) (org_id tag : string) :
  NoDup (_get_current_edges db org_id tag).*1
  /\ (db !! (org_id, tag) = None -> _get_current_edges db org_id tag = []).
Proof.
  split; [apply get_current_edges_NoDup|].
  unfold _get_current_edges. by intros ->.
Qed.

Lemma get_current_edges_absent_witness :
  _get_current_edges (∅ : TagEdges) "test-org" "python" = [].
Proof.
  apply (proj2 (get_current_edges_unique_keys ∅ "test-org" "python")).
  reflexivity.
Defined.

Lemma insert_desc_Permutation (x : string * Q) (l : Neighbours) :
  insert_desc x l ≡ₚ x :: l.
Proof.
  induction l as [|y l IH]; simpl; [done|].
  destruct (Py.ltb x.2 y.2); [|done].
  rewrite IH. apply Permutation_swap.
Qed.

(** Sorting a neighbour map loses and invents nothing: the sorted list
  is a rearrangement of the map. *)
Lemma sorted_desc_Permutation (items : Neighbours) :
  sorted_desc items ≡ₚ items.
Proof.
  induction items as [|x items IH]; simpl; [done|].
  by rewrite insert_desc_Permutation, IH.
Qed.

(** The neighbours whose weight equals [v]. *)
Definition of_weight (v : Q) (items : Neighbours) : Neighbours :=
  List.filter (fun item => Qeq_bool item.2 v) items.

Lemma of_weight_insert_desc (v : Q) (x : string * Q) (l : Neighbours) :
  of_weight v (insert_desc x l) = of_weight v (x :: l).
Proof.
  induction l as [|y l IH]; [done|].
  cbn [insert_desc]. cases_ltb x.2 y.2; [|done].
  unfold of_weight in *. cbn [List.filter] in *. rewrite IH.
  destruct (Qeq_bool x.2 v) eqn:Ex; [|done].
  destruct (Qeq_bool y.2 v) eqn:Ey; [|done].
  apply Qeq_bool_iff in Ex, Ey. lra.
Qed.

(** The sort is stable: neighbours of equal weight come out in the
  order in which the map holds them. *)
Lemma sorted_desc_stable (v : Q) (items : Neighbours) :
  of_weight v (sorted_desc items) = of_weight v items.
Proof.
  induction items as [|x items IH]; [done|].
  cbn [sorted_desc foldr]. rewrite of_weight_insert_desc.
  unfold of_weight in *. cbn [List.filter].
  change (foldr insert_desc [] items) with (sorted_desc items).
  by rewrite IH.
Qed.

Lemma StronglySorted_take_drop {A} (R : relation A) (n : nat) (l : list A) :
  StronglySorted R l ->
  forall x y, x ∈ take n l -> y ∈ drop n l -> R x y.
Proof.
  intros Hl. rewrite <- (take_drop n l) in Hl.
  intros x y Hx Hy.
  by apply (StronglySorted_app_1_elem_of R (take n l) (drop n l)).
Qed.

(** X8. With a non-negative [maxEdgesPerTag], a write keeps the heaviest
  neighbours: the map splits into the stored neighbours and the dropped
  ones, and no dropped neighbour weighs more than a stored one. *)
Theorem upsert_edges_keeps_heaviest (self : Config) (time_time : Z)
    (db : TagEdges) (org_id tag : string) (edges : Neighbours) :
  (0 <= max_edges_per_tag self)%Z ->
  exists kept dropped : Neighbours,
    (_upsert_edges self time_time db org_id tag edges).1 !! (org_id, tag)
    = Some (edge_of time_time <$> kept)
    /\ edges ≡ₚ kept ++ dropped
    /\ (forall x y, x ∈ kept -> y ∈ dropped -> y.2 <= x.2).
Proof.
  intros HM.
  exists (take (Z.to_nat (max_edges_per_tag self)) (sorted_desc edges)),
         (drop (Z.to_nat (max_edges_per_tag self)) (sorted_desc edges)).
  split; [|split].
  - rewrite upsert_edges_stored. unfold slice_to.
    by destruct (Z.leb_spec 0 (max_edges_per_tag self)); [|lia].
  - by rewrite take_drop, sorted_desc_Permutation.
  - intros x y Hx Hy.
    exact (StronglySorted_take_drop desc _ _ (sorted_desc_sorted edges)
             x y Hx Hy).
Qed.

Lemma upsert_edges_keeps_heaviest_witness :
  exists kept dropped : Neighbours,
    (_upsert_edges test_config pass_time seeded_db "test-org" "python"
       four_neighbours).1 !! ("test-org", "python")
    = Some (edge_of pass_time <$> kept)
    /\ four_neighbours ≡ₚ kept ++ dropped
    /\ (forall x y, x ∈ kept -> y ∈ dropped -> y.2 <= x.2).
Proof.
  apply (upsert_edges_keeps_heaviest test_config pass_time seeded_db
           "test-org" "python" four_neighbours).
  simpl. lia.
Defined.

Lemma rebuild_neighbours (time_time : Z) (l acc : Neighbours) :
  NoDup (acc ++ l).*1 ->
  fold_left (fun edges edge => dict_set edges (to edge) (w edge))
    (edge_of time_time <$> l) acc
  = acc ++ l.
Proof.
  revert acc. induction l as [|[k v] l IH]; intros acc Hnd; simpl.
  - by rewrite app_nil_r.
  - rewrite dict_set_fresh.
    + rewrite IH; [by rewrite <- app_assoc|]. by rewrite <- app_assoc.
    + rewrite fmap_app in Hnd. apply NoDup_app in Hnd as (_ & Hdisj & _).
      intros Hk. apply (Hdisj k Hk). simpl. apply elem_of_cons. by left.
Qed.

Lemma read_after_upsert (self : Config) (time_time : Z)
    (db : TagEdges) (org_id tag : string) (edges : Neighbours) :
  NoDup edges.*1 ->
  _get_current_edges
    (_upsert_edges self time_time db org_id tag edges).1 org_id tag
  = slice_to (sorted_desc edges) (max_edges_per_tag self).
Proof.
  intros Hnd. unfold _get_current_edges.
  rewrite upsert_edges_stored.
  apply (rebuild_neighbours time_time _ []). simpl.
  assert (Hs : NoDup (sorted_desc edges).*1)
    by (by rewrite sorted_desc_Permutation).
  unfold slice_to.
  destruct (0 <=? max_edges_per_tag self)%Z;
    (eapply sublist_NoDup; [exact Hs|]; apply fmap_sublist, sublist_take).
Qed.

(** X9. Write, then read: after a write of a neighbour map (each
  neighbour named once), [_get_current_edges] returns the map sorted
  heaviest first and cut to the top M. *)
Theorem get_current_edges_after_upsert (self : Config) (time_time : Z)
    (db : TagEdges) (org_id tag : string) (edges : Neighbours) :
  NoDup edges.*1 ->
  _get_current_edges
    (_upsert_edges self time_time db org_id tag edges).1 org_id tag
  = slice_to (sorted_desc edges) (max_edges_per_tag self).
Proof. apply read_after_upsert. Qed.

Lemma get_current_edges_after_upsert_witness :
  _get_current_edges
    (_upsert_edges test_config pass_time seeded_db "test-org" "python"
       four_neighbours).1 "test-org" "python"
  = slice_to (sorted_desc four_neighbours) (max_edges_per_tag test_config).
Proof.
  apply (get_current_edges_after_upsert test_config pass_time seeded_db
           "test-org" "python" four_neighbours).
  vm_compute. repeat constructor; intros H;
    repeat (apply elem_of_cons in H as [H|H]; [discriminate H|]);
    by apply elem_of_nil in H.
Defined.

End NeighbourLaws.

(** ** What a learning pass changes *)

Module PassLaws.

Import EdgeLearning EdgeLearningFacts PyFacts TopM TopMExamples Pairs Pass.
Local Open Scope Z_scope.

Section WithJob.

Variable self : Config.
Variable time_time : Z.
Variable total_duration : Q.

(** A property of the collection that every single direction update of
  the visited organisations keeps is kept by the whole pass. *)
Lemma run_preserves (P : TagEdges -> Prop) (pack_events : list PackEvent)
    (db : TagEdges) (org_id : option string) (hours : option Z) :
  (forall (db' : TagEdges) (org src dst : string) (accepted : bool),
      org ∈ select_orgs pack_events org_id ->
      P db' -> P (update_direction self time_time db' org src dst accepted)) ->
  P db ->
  P (run self time_time total_duration pack_events db org_id hours).1.
Proof.
  intros Hstep Hdb.
  assert (Hpairs : forall org accepted pairs (st : TagEdges * Z),
             org ∈ select_orgs pack_events org_id ->
             P st.1 ->
             P (fold_left (run_pair self time_time org accepted) pairs st).1).
  { intros org accepted pairs. induction pairs as [|[tag1 tag2] pairs IH];
      intros [db' n] Horg Hst; [done|].
    cbn [fold_left]. apply IH; [done|]. cbn.
    apply Hstep; [done|]. by apply Hstep. }
  assert (Hevents : forall org events (st : TagEdges * Z),
             org ∈ select_orgs pack_events org_id ->
             P st.1 ->
             P (fold_left (run_event self time_time org) events st).1).
  { intros org events. induction events as [|event events IH];
      intros st Horg Hst; [done|].
    cbn [fold_left]. apply IH; [done|].
    rewrite run_event_pairs. by apply Hpairs. }
  unfold run.
  assert (Horgs : forall orgs (st : TagEdges * Z * Z),
             (forall org, org ∈ orgs -> org ∈ select_orgs pack_events org_id) ->
             P st.1.1 ->
             P (fold_left (run_org self time_time pack_events hours) orgs st).1.1).
  { intros orgs. induction orgs as [|org orgs IH]; intros st Hin Hst; [done|].
    cbn [fold_left]. apply IH.
    - intros org' Horg'. apply Hin, elem_of_cons. by right.
    - destruct st as [[db' total_updated] total_pruned]. unfold run_org.
      destruct (_get_recent_pack_events _ _ _ _ _) as [|event events];
        [done|].
      pose proof (Hevents org (event :: events) (db', 0)) as H.
      destruct (fold_left _ (event :: events) (db', 0)) as [db'' n].
      apply H; [|done]. apply Hin, elem_of_cons. by left. }
  pose proof (Horgs (select_orgs pack_events org_id) (db, 0, 0)) as H.
  destruct (fold_left _ _ (db, 0, 0)) as [[db' n] p]. by apply H.
Qed.

Lemma bind_nil_inv {A B} (f : A -> list B) (l : list A) (x : A) :
  l ≫= f = [] -> x ∈ l -> f x = [].
Proof.
  induction l as [|y l IH]; intros Hnil Hx; [by apply elem_of_nil in Hx|].
  rewrite bind_cons in Hnil. apply app_eq_nil in Hnil as [Hy Hl].
  apply elem_of_cons in Hx as [->|Hx]; auto.
Qed.

Lemma run_events_no_pairs (org : string) (events : list PackEvent)
    (st : TagEdges * Z) :
  events ≫= event_pairs = [] ->
  fold_left (run_event self time_time org) events st = st.
Proof.
  induction events as [|event events IH]; intros Hnil; [done|].
  rewrite bind_cons in Hnil. apply app_eq_nil in Hnil as [Hevent Hrest].
  cbn [fold_left]. rewrite run_event_pairs, Hevent. cbn [fold_left].
  by apply IH.
Qed.

Lemma run_org_no_pairs (pack_events : list PackEvent) (hours : option Z)
    (db : TagEdges) (total_updated total_pruned : Z) (org : string) :
  org_pairs self time_time pack_events hours org = [] ->
  run_org self time_time pack_events hours
    (db, total_updated, total_pruned) org
  = (db, total_updated, total_pruned).
Proof.
  unfold org_pairs, run_org. intros Hnil.
  destruct (_get_recent_pack_events _ _ _ _ _) as [|event events]; [done|].
  rewrite (run_events_no_pairs org (event :: events) (db, 0) Hnil).
  do 2 f_equal. lia.
Qed.

End WithJob.

(** X10. A pass that finds no pair to process (no event of the visited
  organisations in the window, or only events with fewer than two tags)
  leaves the collection as it is and returns [updated = 0] and
  [pruned = 0]. *)
Theorem run_without_pairs (self : Config) (time_time : Z)
    (total_duration : Q) (pack_events : list PackEvent) (db : TagEdges)
    (org_id : option string) (hours : option Z) :
  pass_pairs self time_time pack_events org_id hours = [] ->
  run self time_time total_duration pack_events db org_id hours
  = (db, {| updated := 0; pruned := 0;
            duration_seconds := total_duration |}).
Proof.
  unfold pass_pairs, run. intros Hnil.
  assert (H : forall orgs,
             (forall org, org ∈ orgs ->
                org_pairs self time_time pack_events hours org = []) ->
             fold_left (run_org self time_time pack_events hours) orgs
               (db, 0, 0)
             = (db, 0, 0)).
  { induction orgs as [|org orgs IH]; intros Hin; [done|].
    cbn [fold_left]. rewrite run_org_no_pairs.
    - apply IH. intros org' Horg'. apply Hin, elem_of_cons. by right.
    - apply Hin, elem_of_cons. by left. }
  rewrite H; [done|].
  intros org Horg. by eapply bind_nil_inv.
Qed.

(** An event with a single tag, as in
  [test_edge_learning_with_insufficient_tags]. *)
Definition single_tag_event : PackEvent :=
  {| orgId := "test-org"; projectId := "test-project"; packId := "pack-1";
     accepted := Some true; tags := Some ["python"];
     itemIds := ["mem-1"]; event_ts := event_time |}.

Lemma run_without_pairs_witness :
  run test_config pass_time 0 [single_tag_event] seeded_db
    (Some "test-org") (Some 24)
  = (seeded_db, {| updated := 0; pruned := 0; duration_seconds := 0 |}).
Proof.
  apply (run_without_pairs test_config pass_time 0 [single_tag_event]
           seeded_db (Some "test-org") (Some 24)).
  reflexivity.
Defined.

(** X11. A pass writes only documents of the organisations it visits:
  the document of every [(org, tag)] whose [org] is not visited is
  after the pass what it was before. *)
Theorem run_isolates_orgs (self : Config) (time_time : Z)
    (total_duration : Q) (pack_events : list PackEvent) (db : TagEdges)
    (org_id : option string) (hours : option Z) (key : string * string) :
  key.1 ∉ select_orgs pack_events org_id ->
  (run self time_time total_duration pack_events db org_id hours).1 !! key
  = db !! key.
Proof.
  intros Hkey.
  apply (run_preserves self time_time total_duration
           (fun db' => db' !! key = db !! key)); [|done].
  intros db' org src dst accepted Horg Hdb'.
  rewrite update_direction_other; [done|].
  intros ->. by apply Hkey.
Qed.

Lemma run_isolates_orgs_witness :
  (run test_config pass_time 0 [accepted_event] seeded_db
     (Some "test-org") (Some 24)).1 !! ("other-org", "python")
  = seeded_db !! ("other-org", "python").
Proof.
  apply (run_isolates_orgs test_config pass_time 0 [accepted_event] seeded_db
           (Some "test-org") (Some 24) ("other-org", "python")).
  cbn. intros H. apply list_elem_of_singleton in H. discriminate H.
Defined.

End PassLaws.

(** ** What a learning pass keeps *)

Module PassInvariants.

Import EdgeLearning EdgeLearningFacts PyFacts TopM TopMExamples Pairs Pass.
Import PassLaws.
Local Open Scope Z_scope.

(** A stored edge list within the bound and sorted, heaviest first. *)
Definition bounded_sorted (self : Config) (stored : list Edge) : Prop :=
  Z.of_nat (length stored) <= max_edges_per_tag self
  /\ StronglySorted heavier stored.

(** Every stored weight lies in [[0, wMax]]. *)
Definition weights_in_range (self : Config) (db : TagEdges) : Prop :=
  forall (key : string * string) (stored : list Edge) (e : Edge),
    db !! key = Some stored -> e ∈ stored ->
    (0 <= w e <= w_max self)%Q.

Lemma elem_of_dict_set (x : string * Q) (edges : Neighbours) (key : string)
    (value : Q) :
  x ∈ dict_set edges key value -> x.2 = value \/ x ∈ edges.
Proof.
  induction edges as [|[k v] edges IH]; simpl.
  - intros ->%list_elem_of_singleton. by left.
  - destruct (String.eqb k key).
    + intros [->|Hx]%elem_of_cons; [by left|].
      right. apply elem_of_cons. by right.
    + intros [->|Hx]%elem_of_cons.
      * right. apply elem_of_cons. by left.
      * destruct (IH Hx) as [?|?]; [by left|].
        right. apply elem_of_cons. by right.
Qed.

Lemma elem_of_read_neighbours (x : string * Q) (doc_edges : list Edge)
    (acc : Neighbours) :
  x ∈ fold_left (fun edges edge => dict_set edges (to edge) (w edge))
        doc_edges acc ->
  x ∈ acc \/ exists e, e ∈ doc_edges /\ w e = x.2.
Proof.
  revert acc. induction doc_edges as [|e doc_edges IH]; intros acc; simpl.
  - by left.
  - intros [Hx|(e' & He' & Hw)]%IH.
    + apply elem_of_dict_set in Hx as [Hx|Hx]; [|by left].
      right. exists e. split; [apply elem_of_cons; by left|done].
    + right. exists e'. split; [apply elem_of_cons; by right|done].
Qed.

(** X12. With a non-negative [maxEdgesPerTag], every document a pass
  has rewritten is within the bound and sorted by weight, heaviest
  first; the other documents are what they were.  So a collection whose
  documents are all bounded and sorted stays so over any pass. *)
Theorem run_keeps_documents_bounded_sorted (self : Config) (time_time : Z)
    (total_duration : Q) (pack_events : list PackEvent) (db : TagEdges)
    (org_id : option string) (hours : option Z) :
  0 <= max_edges_per_tag self ->
  let db' :=
    (run self time_time total_duration pack_events db org_id hours).1 in
  (forall key : string * string,
      db' !! key = db !! key
      \/ exists stored, db' !! key = Some stored /\ bounded_sorted self stored)
  /\ ((forall key stored, db !! key = Some stored -> bounded_sorted self stored)
      -> forall key stored,
           db' !! key = Some stored -> bounded_sorted self stored).
Proof.
  intros HM db'.
  assert (H : forall key : string * string,
             db' !! key = db !! key
             \/ exists stored,
                 db' !! key = Some stored /\ bounded_sorted self stored).
  { subst db'.
    apply (run_preserves self time_time total_duration
             (fun db' => forall key : string * string,
                db' !! key = db !! key
                \/ exists stored,
                    db' !! key = Some stored /\ bounded_sorted self stored));
      [|by left].
    intros db1 org src dst accepted _ Hdb1 key.
    destruct (decide (key = (org, src))) as [->|Hne].
    - right. eexists. split; [apply update_direction_lookup|].
      unfold written. split.
      + rewrite length_fmap. by apply slice_to_length.
      + apply edge_of_sorted, slice_to_sorted, sorted_desc_sorted.
    - rewrite update_direction_other by done. apply Hdb1. }
  split; [exact H|].
  intros Hdb key stored Hkey.
  destruct (H key) as [Heq|(stored' & Hstored' & Hgood)].
  - apply (Hdb key). by rewrite <- Heq.
  - by simplify_eq.
Qed.

Lemma run_keeps_documents_bounded_sorted_witness :
  let db' :=
    (run test_config pass_time 0 [accepted_event] seeded_db
       (Some "test-org") (Some 24)).1 in
  (forall key : string * string,
      db' !! key = seeded_db !! key
      \/ exists stored,
          db' !! key = Some stored /\ bounded_sorted test_config stored)
  /\ ((forall key stored,
          seeded_db !! key = Some stored -> bounded_sorted test_config stored)
      -> forall key stored,
           db' !! key = Some stored -> bounded_sorted test_config stored).
Proof.
  apply (run_keeps_documents_bounded_sorted test_config pass_time 0
           [accepted_event] seeded_db (Some "test-org") (Some 24)).
  simpl. lia.
Defined.

(** X13. With a non-negative [wMax], a pass keeps every stored weight in
  [[0, wMax]]: if all weights of the collection are in range before the
  pass, all weights are in range after it. *)
Theorem run_keeps_weights_in_range (self : Config) (time_time : Z)
    (total_duration : Q) (pack_events : list PackEvent) (db : TagEdges)
    (org_id : option string) (hours : option Z) :
  (0 <= w_max self)%Q ->
  weights_in_range self db ->
  weights_in_range self
    (run self time_time total_duration pack_events db org_id hours).1.
Proof.
  intros Hwmax Hdb.
  apply (run_preserves self time_time total_duration (weights_in_range self));
    [|done].
  intros db1 org src dst accepted _ Hdb1 key stored e Hkey He.
  destruct (decide (key = (org, src))) as [->|Hne].
  - rewrite update_direction_lookup in Hkey. simplify_eq.
    unfold written in He.
    apply list_elem_of_fmap in He as (x & -> & Hx).
    apply elem_of_slice_to, elem_of_sorted_desc, elem_of_dict_set in Hx.
    cbn [w edge_of]. destruct Hx as [->|Hx].
    + unfold _update_edge_weight. by apply clip_weight_range.
    + unfold _get_current_edges in Hx.
      destruct (db1 !! (org, src)) as [doc_edges|] eqn:Hdoc;
        [|by apply elem_of_nil in Hx].
      apply elem_of_read_neighbours in Hx as [Hx|(e' & He' & <-)];
        [by apply elem_of_nil in Hx|].
      by apply (Hdb1 (org, src) doc_edges).
  - rewrite update_direction_other in Hkey by done.
    by apply (Hdb1 key stored).
Qed.

Lemma seeded_db_in_range : weights_in_range test_config seeded_db.
Proof.
  intros key stored e Hkey He.
  unfold seeded_db in Hkey.
  apply lookup_singleton_Some in Hkey as [_ <-].
  cbn in He.
  repeat (apply elem_of_cons in He as [->|He]; [by cbn|]).
  by apply elem_of_nil in He.
Defined.

Lemma run_keeps_weights_in_range_witness :
  weights_in_range test_config
    (run test_config pass_time 0 [accepted_event] seeded_db
       (Some "test-org") (Some 24)).1.
Proof.
  apply (run_keeps_weights_in_range test_config pass_time 0 [accepted_event]
           seeded_db (Some "test-org") (Some 24)).
  - by cbn.
  - exact seeded_db_in_range.
Defined.

End PassInvariants.

(** ** Tag pairs and the event window *)

Module PairLaws.

Import EdgeLearning TopMExamples Pairs.

(** X14. [_build_tag_pairs] lists [(a, b)] exactly when [a] stands at an
  earlier position of the tag list than [b], and it lists
  [n * (n - 1) / 2] pairs for [n] tags, repeated tags included. *)
Theorem build_tag_pairs_positions (tags : list string) :
  (forall a b : string,
      (a, b) ∈ _build_tag_pairs tags
      <-> exists l1 l2 l3, tags = l1 ++ a :: l2 ++ b :: l3)
  /\ (2 * length (_build_tag_pairs tags) = length tags * (length tags - 1))%nat.
Proof.
  split.
  - intros a b. apply elem_of_build_tag_pairs.
  - apply build_tag_pairs_length.
Qed.

(** X15. On a tag list without repeated tags, [_build_tag_pairs] lists
  exactly the unordered pairs of different tags: every listed pair joins
  two different tags of the list, every two different tags are joined by
  a listed pair, and no pair is listed twice in either orientation. *)
Theorem build_tag_pairs_on_distinct_tags (tags : list string) :
  NoDup tags -> unordered_pairs_of tags (_build_tag_pairs tags).
Proof. apply build_tag_pairs_distinct. Qed.

Lemma build_tag_pairs_on_distinct_tags_witness :
  unordered_pairs_of ["python"; "fastapi"; "web_development"]
    (_build_tag_pairs ["python"; "fastapi"; "web_development"]).
Proof.
  apply (build_tag_pairs_on_distinct_tags
           ["python"; "fastapi"; "web_development"]).
  repeat constructor; intros H;
    repeat (apply elem_of_cons in H as [H|H]; [discriminate H|]);
    by apply elem_of_nil in H.
Defined.

End PairLaws.

(** ** Tiers and the conversions of the sweep *)

Module TieringLaws.

Import Tiering PyFacts TierBands.
Local Open Scope Z_scope.

Lemma determine_tier_range (h : Q) : 1 <= determine_tier h <= 3.
Proof.
  unfold determine_tier.
  destruct (Py.geb h 5.0); [lia|]. destruct (Py.geb h 1.0); lia.
Qed.

(** X17. [determine_tier] returns 1, 2 or 3, and a higher score never
  gives a colder tier. *)
Theorem determine_tier_antitone :
  (forall h : Q, 1 <= determine_tier h <= 3)
  /\ (forall h1 h2 : Q,
        (h1 <= h2)%Q -> determine_tier h2 <= determine_tier h1).
Proof.
  split; [exact determine_tier_range|].
  intros h1 h2 Hle. unfold determine_tier.
  destruct (Py.geb h1 5.0) eqn:E1; destruct (Py.geb h2 5.0) eqn:E2;
    destruct (Py.geb h1 1.0) eqn:E3; destruct (Py.geb h2 1.0) eqn:E4;
    try lia;
    rewrite ?geb_ge, ?geb_lt in *; lra.
Qed.

Lemma determine_tier_antitone_witness :
  determine_tier 7.5 <= determine_tier 0.5.
Proof.
  apply (proj2 determine_tier_antitone 0.5%Q 7.5%Q). lra.
Defined.

(** X18. The only error that leaves [safe_get_int] is the
  [OverflowError] of an infinite float: every other value, of whatever
  type, gives an integer. *)
Theorem safe_get_int_raises_only_on_infinity
    (int_of_str : string -> option Z) (value : pyvalue) (default : Z)
    (e : pyexn) :
  safe_get_int int_of_str value default = Raise e ->
  e = OverflowError /\ exists negative, value = PyFloat (Inf negative).
Proof.
  destruct value as [| b | n | [q| |negative] | s | t |];
    unfold safe_get_int, py_int; try discriminate.
  - intros [= <-]. eauto.
  - destruct (int_of_str s); discriminate.
Qed.

Lemma safe_get_int_raises_only_on_infinity_witness :
  OverflowError = OverflowError
  /\ exists negative, PyFloat (Inf true) = PyFloat (Inf negative).
Proof.
  apply (safe_get_int_raises_only_on_infinity (fun _ => None)
           (PyFloat (Inf true)) 1 OverflowError).
  reflexivity.
Defined.

(** X19. [safe_parse_datetime] gives a date exactly for a datetime
  object and for a non-empty string that [fromisoformat] accepts once
  its [Z]s are removed; every other value reads as no date. *)
Theorem safe_parse_datetime_some (fromisoformat : string -> option Z)
    (value : pyvalue) (t : Z) :
  safe_parse_datetime fromisoformat value = Some t
  <-> value = PyDatetime t
      \/ exists s, value = PyStr s /\ s <> ""%string
                   /\ fromisoformat (remove_Z s) = Some t.
Proof.
  unfold safe_parse_datetime. split.
  - destruct value as [| b | n | x | s | t' |]; simpl;
      try (by destruct b); try (by destruct (n =? 0));
      try (by destruct x as [q| |]; [destruct (Qeq_bool q 0)| |]);
      try done.
    + destruct (String.eqb_spec s ""); simpl; [done|].
      destruct (fromisoformat (remove_Z s)) eqn:E; [|done].
      intros [= ->]. right. by exists s.
    + intros [= ->]. by left.
  - intros [->|(s & -> & Hs & Hparse)]; [done|]. simpl.
    destruct (String.eqb_spec s ""); [done|]. simpl. by rewrite Hparse.
Qed.

End TieringLaws.

(** ** The sweep over the tag view *)

Module SweepLaws.

Import Tiering Rebalance TieringLaws.
Local Open Scope Z_scope.

Section WithService.

Variable utcnow : Z.
Variable fromisoformat : string -> option Z.
Variable int_of_str : string -> option Z.
Variable ln : Z -> Q.
Variable round3 : Q -> Q.
Variable update_tag_tier : string -> Z -> bool.
Variable tag_view : list TagRecord.

Local Abbreviation step :=
  (rebalance_tag utcnow fromisoformat int_of_str ln round3 update_tag_tier).
Local Abbreviation hotness_of :=
  (compute_hotness_score utcnow ln round3).

(** *** Pagination *)

Lemma sweep_pages_S (fuel page : nat) (st : Sweep) :
  sweep_pages utcnow fromisoformat int_of_str ln round3 update_tag_tier
    tag_view (S fuel) page st
  = match get_tags_for_rebalancing tag_view page 100 with
    | [] => Some st
    | tags =>
        sweep_pages utcnow fromisoformat int_of_str ln round3 update_tag_tier
          tag_view fuel (S page) (fold_left step tags st)
    end.
Proof. reflexivity. Qed.

Lemma sweep_pages_fold (fuel page : nat) (st : Sweep) :
  (length tag_view <= (page + fuel) * 100)%nat ->
  sweep_pages utcnow fromisoformat int_of_str ln round3 update_tag_tier
    tag_view (S fuel) page st
  = Some (fold_left step (drop (page * 100) tag_view) st).
Proof.
  revert page st. induction fuel as [|fuel IH]; intros page st Hlen.
  - cbn [sweep_pages]. unfold get_tags_for_rebalancing.
    rewrite drop_ge by lia. by rewrite take_nil.
  - rewrite sweep_pages_S. unfold get_tags_for_rebalancing.
    destruct (take 100 (drop (page * 100) tag_view)) as [|t ts] eqn:E.
    + by destruct (drop (page * 100) tag_view).
    + assert (Hsplit : drop (page * 100) tag_view
                       = (t :: ts) ++ drop (S page * 100) tag_view).
      { rewrite <- E.
        etrans; [symmetry; apply (take_drop 100)|].
        f_equal. rewrite drop_drop. f_equal. lia. }
      rewrite IH by lia. by rewrite Hsplit, fold_left_app.
Qed.

(** *** What one record can do *)

Lemma rebalance_tag_cases (st : Sweep) (tag_data : TagRecord) :
  step st tag_data = st
  \/ step st tag_data
     = {| total_processed := total_processed st + 1;
          total_rebalanced := total_rebalanced st;
          tier_updates := tier_updates st |}
  \/ exists (tier : Z) (success : bool),
       1 <= tier <= 3
       /\ step st tag_data
          = {| total_processed := total_processed st + 1;
               total_rebalanced :=
                 total_rebalanced st + (if success then 1 else 0);
               tier_updates :=
                 tier_updates st ++ [(default "unknown" (tag tag_data), tier)]
            |}.
Proof.
  unfold rebalance_tag, rebalance_tag_body, post_tier_update.
  destruct (safe_get_int int_of_str (get (metrics tag_data) "useCount") 1)
    as [use_count|?]; cbn [bind]; [|by left].
  destruct (safe_parse_datetime _ (get _ "createdAt")) as [created_at|];
    [|by left].
  destruct (safe_parse_datetime _ (get _ "lastUsedAt")) as [last_used_at|];
    [|by left].
  destruct (compute_hotness_score _ _ _ _ _ _ _) as [hotness|?];
    cbn [bind]; [|by left].
  destruct (safe_get_int int_of_str (get (meta tag_data) "tier") 2)
    as [current_tier|?]; cbn [bind]; [|by left].
  destruct (determine_tier hotness =? current_tier).
  - right. by left.
  - right. right. exists (determine_tier hotness).
    pose proof (determine_tier_range hotness) as Hrange.
    destruct (update_tag_tier _ _).
    + exists true. split; [done|]. cbn. do 2 f_equal.
    + exists false. split; [done|]. cbn. f_equal. lia.
Qed.

(** The counters of a sweep state, against the number of records seen. *)
Definition counted (st : Sweep) (seen : Z) : Prop :=
  0 <= total_rebalanced st <= Z.of_nat (length (tier_updates st))
  /\ Z.of_nat (length (tier_updates st)) <= total_processed st
  /\ total_processed st <= seen.

Lemma rebalance_tag_counted (st : Sweep) (seen : Z) (tag_data : TagRecord) :
  counted st seen -> counted (step st tag_data) (seen + 1).
Proof.
  unfold counted. intros (Hr & Hu & Hp).
  destruct (rebalance_tag_cases st tag_data)
    as [->|[->|(tier & success & _ & ->)]]; cbn.
  - lia.
  - lia.
  - rewrite length_app. cbn [length]. destruct success; lia.
Qed.

Lemma rebalance_tags_counted (records : list TagRecord) (st : Sweep)
    (seen : Z) :
  counted st seen ->
  counted (fold_left step records st) (seen + Z.of_nat (length records)).
Proof.
  revert st seen. induction records as [|tag_data records IH];
    intros st seen Hst.
  - cbn. by rewrite Z.add_0_r.
  - cbn [fold_left length].
    replace (seen + Z.of_nat (S (length records)))
      with (seen + 1 + Z.of_nat (length records)) by lia.
    by apply IH, rebalance_tag_counted.
Qed.

(** The tier updates of a sweep state are updates of records of the
  view, to a tier from 1 to 3. *)
Definition updates_valid (records : list TagRecord) (st : Sweep) : Prop :=
  forall (name : string) (tier : Z),
    (name, tier) ∈ tier_updates st ->
    1 <= tier <= 3
    /\ exists tag_data, tag_data ∈ records
                        /\ name = default "unknown" (tag tag_data).

Lemma rebalance_tags_valid (records seen : list TagRecord) (st : Sweep) :
  updates_valid seen st ->
  updates_valid (seen ++ records) (fold_left step records st).
Proof.
  revert seen st. induction records as [|tag_data records IH];
    intros seen st Hst.
  - by rewrite app_nil_r.
  - cbn [fold_left].
    replace (seen ++ tag_data :: records)
      with ((seen ++ [tag_data]) ++ records) by (by rewrite <- app_assoc).
    apply IH. intros name tier Hin.
    assert (Hold : (name, tier) ∈ tier_updates st ->
                   1 <= tier <= 3
                   /\ exists tag_data0, tag_data0 ∈ seen ++ [tag_data]
                        /\ name = default "unknown" (tag tag_data0)).
    { intros H. destruct (Hst name tier H) as (Hr & t0 & Ht0 & Hn).
      split; [done|]. exists t0. split; [|done].
      apply elem_of_app. by left. }
    destruct (rebalance_tag_cases st tag_data)
      as [E|[E|(tier' & success & Hrange & E)]]; rewrite E in Hin;
      cbn in Hin; [by apply Hold|by apply Hold|].
    apply elem_of_app in Hin as [Hin|Hin]; [by apply Hold|].
    apply list_elem_of_singleton in Hin as [= -> ->].
    split; [done|]. exists tag_data. split; [|done].
    apply elem_of_app. right. by apply list_elem_of_singleton.
Qed.

End WithService.

End SweepLaws.

Module SweepProperties.

Import Tiering PagingLaws Rebalance TieringLaws SweepLaws.
Local Open Scope Z_scope.

(** X20. A connected sweep handles the pages in the order it fetches
  them, up to the first page that comes back empty, and ends there: its
  result is the state reached by handling the records of the pages
  before that one, one after the other, and no later page is handled.
  The empty page is the end of the view or a fetch that failed.  A sweep
  that finds the database disconnected handles nothing, and while every
  page comes back with records the loop does not end. *)
Theorem rebalance_all_tags_stops_at_empty_page :
  (forall (utcnow : Z) (fromisoformat int_of_str : string -> option Z)
          (ln : Z -> Q) (round3 : Q -> Q)
          (update_tag_tier : string -> Z -> bool)
          (fetch : nat -> list TagRecord) (empty_page fuel : nat),
      (forall page : nat, (page < empty_page)%nat -> fetch page <> []) ->
      fetch empty_page = [] ->
      (empty_page < fuel)%nat ->
      Paging.rebalance_all_tags utcnow fromisoformat int_of_str ln round3
        update_tag_tier fetch fuel true
      = Some (fold_left
                (rebalance_tag utcnow fromisoformat int_of_str ln round3
                   update_tag_tier)
                (concat (fetch <$> seq 0 empty_page)) fresh_sweep))
  /\ (forall (utcnow : Z) (fromisoformat int_of_str : string -> option Z)
             (ln : Z -> Q) (round3 : Q -> Q)
             (update_tag_tier : string -> Z -> bool)
             (fetch : nat -> list TagRecord) (fuel : nat),
        Paging.rebalance_all_tags utcnow fromisoformat int_of_str ln round3
          update_tag_tier fetch fuel false
        = Some fresh_sweep)
  /\ (forall (utcnow : Z) (fromisoformat int_of_str : string -> option Z)
             (ln : Z -> Q) (round3 : Q -> Q)
             (update_tag_tier : string -> Z -> bool)
             (fetch : nat -> list TagRecord) (fuel : nat),
        (forall page : nat, fetch page <> []) ->
        Paging.rebalance_all_tags utcnow fromisoformat int_of_str ln round3
          update_tag_tier fetch fuel true
        = None).
Proof.
  split; [|split].
  - intros utcnow fromisoformat int_of_str ln round3 update_tag_tier fetch
      empty_page fuel Hfull Hempty Hfuel.
    unfold Paging.rebalance_all_tags. cbn [negb].
    by apply sweep_pages_stops.
  - done.
  - intros utcnow fromisoformat int_of_str ln round3 update_tag_tier fetch
      fuel Hfull.
    unfold Paging.rebalance_all_tags. cbn [negb].
    by apply sweep_pages_goes_on.
Qed.

(** A sweep whose second fetch fails: the record of the first page is
  handled, the record of the third page is not. *)
Lemma rebalance_all_tags_stops_at_empty_page_witness :
  let day := 86400 in
  let fetch (page : nat) :=
    match page with
    | 0%nat => [missing_count_record (10 * day) (19 * day)]
    | 1%nat => []
    | _ => [missing_count_record (11 * day) (19 * day)]
    end in
  Paging.rebalance_all_tags (20 * day) (fun _ => None) (fun _ => None)
    (fun _ => 2.5%Q) (fun q => q) (fun _ _ => true) fetch 5 true
  = Some (fold_left
            (rebalance_tag (20 * day) (fun _ => None) (fun _ => None)
               (fun _ => 2.5%Q) (fun q => q) (fun _ _ => true))
            (concat (fetch <$> seq 0 1)) fresh_sweep).
Proof.
  cbv zeta.
  apply (proj1 rebalance_all_tags_stops_at_empty_page (20 * 86400)
           (fun _ => None) (fun _ => None) (fun _ => 2.5%Q) (fun q => q)
           (fun _ _ => true)
           (fun page : nat =>
              match page with
              | 0%nat => [missing_count_record (10 * 86400) (19 * 86400)]
              | 1%nat => []
              | _ => [missing_count_record (11 * 86400) (19 * 86400)]
              end)
           1%nat 5%nat).
  - intros page Hpage. assert (page = 0%nat) as -> by lia. discriminate.
  - reflexivity.
  - lia.
Defined.

Lemma fresh_sweep_counted : counted fresh_sweep 0.
Proof. unfold counted. cbn. lia. Qed.

(** X21. The counters of a finished sweep are ordered: the number of
  tags rebalanced is at most the number of tier updates issued, that is
  at most the number of records processed, that is at most the number of
  records of the view. *)
Theorem rebalance_all_tags_counters
    (utcnow : Z) (fromisoformat int_of_str : string -> option Z)
    (ln : Z -> Q) (round3 : Q -> Q) (update_tag_tier : string -> Z -> bool)
    (tag_view : list TagRecord) (is_connected : bool) :
  exists st : Sweep,
    rebalance_all_tags utcnow fromisoformat int_of_str ln round3
      update_tag_tier tag_view is_connected = Some st
    /\ 0 <= total_rebalanced st <= Z.of_nat (length (tier_updates st))
    /\ Z.of_nat (length (tier_updates st)) <= total_processed st
    /\ total_processed st <= Z.of_nat (length tag_view).
Proof.
  unfold rebalance_all_tags. destruct is_connected; cbn [negb].
  - rewrite sweep_pages_fold by lia. rewrite drop_0.
    eexists. split; [done|].
    apply (rebalance_tags_counted utcnow fromisoformat int_of_str ln round3
             update_tag_tier tag_view fresh_sweep 0 fresh_sweep_counted).
  - exists fresh_sweep. split; [done|]. cbn. lia.
Qed.

(** X22. Every tier update a sweep issues is for a record of the view
  (under its tag, or [unknown] when it has none) and sets a tier from 1
  to 3. *)
Theorem rebalance_all_tags_updates
    (utcnow : Z) (fromisoformat int_of_str : string -> option Z)
    (ln : Z -> Q) (round3 : Q -> Q) (update_tag_tier : string -> Z -> bool)
    (tag_view : list TagRecord) (is_connected : bool) :
  exists st : Sweep,
    rebalance_all_tags utcnow fromisoformat int_of_str ln round3
      update_tag_tier tag_view is_connected = Some st
    /\ forall (name : string) (tier : Z),
         (name, tier) ∈ tier_updates st ->
         1 <= tier <= 3
         /\ exists tag_data, tag_data ∈ tag_view
                             /\ name = default "unknown" (tag tag_data).
Proof.
  unfold rebalance_all_tags. destruct is_connected; cbn [negb].
  - rewrite sweep_pages_fold by lia. rewrite drop_0.
    eexists. split; [done|].
    apply (rebalance_tags_valid utcnow fromisoformat int_of_str ln round3
             update_tag_tier tag_view [] fresh_sweep).
    intros name tier H. by apply elem_of_nil in H.
  - exists fresh_sweep. split; [done|].
    intros name tier H. by apply elem_of_nil in H.
Qed.

Lemma days_between_ahead (now t : Z) :
  now < t <= now + 86400 -> days_between now t = -1.
Proof. unfold days_between. intros H. Z.div_mod_to_equations. lia. Qed.

Lemma days_between_past (now t : Z) : t <= now -> 0 <= days_between now t.
Proof. unfold days_between. intros H. Z.div_mod_to_equations. lia. Qed.

Lemma days_between_far_ahead (now t : Z) :
  now + 86400 < t -> days_between now t <= -2.
Proof. unfold days_between. intros H. Z.div_mod_to_equations. lia. Qed.

Lemma days_between_near (now t : Z) :
  t <= now + 86400 -> -1 <= days_between now t.
Proof. unfold days_between. intros H. Z.div_mod_to_equations. lia. Qed.

(** X23. When [compute_hotness_score] raises: a tag created more than a
  day ahead of the clock gives [ValueError] (the logarithm of a
  non-positive number), a tag last used up to a day ahead of the clock
  gives [ZeroDivisionError]; for a tag created and last used in the
  past, a use count beyond the range of a [float] gives [OverflowError]
  and every other use count gets a score, provided the logarithm is not
  zero from 2 on. *)
Theorem compute_hotness_score_errors
    (utcnow : Z) (ln : Z -> Q) (round3 : Q -> Q) (use_count : Z)
    (created_at last_used_at : Z) (last_promoted_at : option Z) :
  let score :=
    compute_hotness_score utcnow ln round3 use_count created_at last_used_at
      last_promoted_at in
  (utcnow + 86400 < created_at -> score = Raise ValueError)
  /\ (created_at <= utcnow + 86400 ->
      utcnow < last_used_at <= utcnow + 86400 ->
      score = Raise ZeroDivisionError)
  /\ (created_at <= utcnow -> last_used_at <= utcnow ->
      float_overflow <= Z.abs use_count ->
      score = Raise OverflowError)
  /\ (created_at <= utcnow -> last_used_at <= utcnow ->
      Z.abs use_count < float_overflow ->
      (forall x, 2 <= x -> ~ (ln x == 0)%Q) ->
      exists hotness, score = Ok hotness).
Proof.
  intros score. subst score.
  unfold compute_hotness_score, math_log, float_of_int.
  split; [|split; [|split]].
  - intros Hc%days_between_far_ahead.
    destruct (Z.leb_spec (days_between utcnow created_at + 1 + 1) 0);
      [done|lia].
  - intros Hc%days_between_near Hl%days_between_ahead.
    destruct (Z.leb_spec (days_between utcnow created_at + 1 + 1) 0);
      [lia|]. cbn [bind]. by rewrite Hl.
  - intros Hc%days_between_past Hl%days_between_past Hbig.
    destruct (Z.leb_spec (days_between utcnow created_at + 1 + 1) 0);
      [lia|]. cbn [bind].
    destruct (Z.eqb_spec (days_between utcnow last_used_at + 1) 0);
      [lia|]. cbn [bind].
    by destruct (Z.leb_spec float_overflow (Z.abs use_count)); [|lia].
  - intros Hc%days_between_past Hl%days_between_past Hsmall Hln.
    destruct (Z.leb_spec (days_between utcnow created_at + 1 + 1) 0);
      [lia|]. cbn [bind].
    destruct (Z.eqb_spec (days_between utcnow last_used_at + 1) 0);
      [lia|]. cbn [bind].
    destruct (Z.leb_spec float_overflow (Z.abs use_count)); [lia|].
    cbn [bind].
    destruct (Qeq_bool (ln (days_between utcnow created_at + 1 + 1)) 0)
      eqn:E; [|eauto].
    apply Qeq_bool_iff in E. exfalso. eapply Hln; [|exact E]. lia.
Qed.

Lemma compute_hotness_score_errors_witness :
  compute_hotness_score 1700000000 (fun _ => 2.5%Q) (fun q => q) 4
    1699000000 1700003600 None
  = Raise ZeroDivisionError.
Proof.
  apply (proj1 (proj2 (compute_hotness_score_errors 1700000000
                         (fun _ => 2.5%Q) (fun q => q) 4
                         1699000000 1700003600 None))); lia.
Defined.

(** X24. A record whose [lastUsedAt] is a datetime up to a day ahead of
  the clock is dropped by the sweep, whatever its other fields hold:
  it is neither counted as processed nor given a tier update. *)
Theorem rebalance_tag_drops_future_use
    (utcnow : Z) (fromisoformat int_of_str : string -> option Z)
    (ln : Z -> Q) (round3 : Q -> Q) (update_tag_tier : string -> Z -> bool)
    (st : Sweep) (tag_data : TagRecord) (last_used_at : Z) :
  get (metrics tag_data) "lastUsedAt" = PyDatetime last_used_at ->
  utcnow < last_used_at <= utcnow + 86400 ->
  rebalance_tag utcnow fromisoformat int_of_str ln round3 update_tag_tier
    st tag_data
  = st.
Proof.
  intros Hfield Hl%days_between_ahead.
  unfold rebalance_tag, rebalance_tag_body. rewrite Hfield.
  destruct (safe_get_int int_of_str (get (metrics tag_data) "useCount") 1)
    as [use_count|?]; cbn [bind]; [|done].
  destruct (safe_parse_datetime _ (get _ "createdAt")) as [created_at|];
    [|done].
  cbn [safe_parse_datetime truthy negb].
  unfold compute_hotness_score, math_log.
  destruct (days_between utcnow created_at + 1 + 1 <=? 0); cbn [bind];
    [done|].
  by rewrite Hl.
Qed.

Lemma rebalance_tag_drops_future_use_witness :
  rebalance_tag 1700000000 (fun _ => None) (fun _ => None)
    (fun _ => 2.5%Q) (fun q => q) (fun _ _ => true)
    fresh_sweep (missing_count_record 1699000000 1700003600)
  = fresh_sweep.
Proof.
  apply (rebalance_tag_drops_future_use 1700000000 (fun _ => None)
           (fun _ => None) (fun _ => 2.5%Q) (fun q => q) (fun _ _ => true)
           fresh_sweep (missing_count_record 1699000000 1700003600)
           1700003600).
  - reflexivity.
  - lia.
Defined.

End SweepProperties.

(** ** The connection of the database service *)

Module DatabaseLaws.

Import Database PyFacts.
Local Open Scope Q_scope.

(** What every reachable service state satisfies: a health score in
  [[0, 1]], reconnection attempts within the budget, and a client that
  is set exactly in state ["connected"]. *)
Definition sound (s : DatabaseService) : Prop :=
  0 <= _connection_health_score s <= 1
  /\ (0 <= _reconnect_attempts s <= _max_reconnect_attempts s)%Z
  /\ (client s = true <-> _connection_state s = StateConnected).

Lemma health_up (h c : Q) :
  0 <= h <= 1 -> 0 <= c -> 0 <= Py.min 1.0 (h + c) <= 1.
Proof.
  intros Hh Hc. destruct (min_spec 1.0 (h + c)) as [[H ->]|[H ->]]; lra.
Qed.

Lemma health_down (h c : Q) :
  0 <= h <= 1 -> 0 <= c -> 0 <= Py.max 0.0 (h - c) <= 1.
Proof.
  intros Hh Hc. destruct (max_spec 0.0 (h - c)) as [[H ->]|[H ->]]; lra.
Qed.

Lemma set_health_sound (s : DatabaseService) (score : Q) :
  sound s -> 0 <= score <= 1 -> sound (set_health s score).
Proof. intros (Hh & Ha & Hc) Hs. by split. Qed.

Lemma count_error_sound (s : DatabaseService) :
  sound s -> sound (count_error s).
Proof. intros (Hh & Ha & Hc). by split. Qed.

Lemma count_operation_sound (s : DatabaseService) :
  sound s -> sound (count_operation s).
Proof. intros (Hh & Ha & Hc). by split. Qed.

Lemma reconnect_sound (s : DatabaseService) (outcome : ConnectOutcome) :
  sound s -> sound (_reconnect s outcome).1.
Proof.
  intros (Hh & Ha & Hc). unfold _reconnect.
  destruct (Z.leb_spec (_max_reconnect_attempts s) (_reconnect_attempts s));
    [done|].
  destruct outcome as [|why]; unfold sound; cbn.
  - split; [lra|]. split; [lia|done].
  - split; [lra|]. split; [lia|]. split; discriminate.
Qed.

Lemma is_connected_sound (s : DatabaseService) (ping : PingOutcome)
    (reconnect : ConnectOutcome) :
  sound s -> sound (is_connected s ping reconnect).1.
Proof.
  intros Hs. pose proof Hs as (Hh & _ & _). unfold is_connected.
  destruct (negb (client s) || negb (state_is_connected s)); [done|].
  destruct ping.
  - apply set_health_sound; [done|]. apply health_up; lra.
  - destruct (Qle_bool _ 0.3).
    + apply reconnect_sound, set_health_sound; [done|].
      apply health_down; lra.
    + apply set_health_sound; [done|]. apply health_down; lra.
  - apply set_health_sound; [done|]. apply health_down; lra.
Qed.

Lemma execute_operation_sound {R} (s : DatabaseService) (ping : PingOutcome)
    (reconnect : ConnectOutcome) (operation : OpOutcome R)
    (reconnect_after : ConnectOutcome) :
  sound s ->
  sound (_execute_operation s ping reconnect operation reconnect_after).1.
Proof.
  intros Hs. unfold _execute_operation.
  pose proof (is_connected_sound s ping reconnect Hs) as Hs'.
  destruct (is_connected s ping reconnect) as [s' connected]. cbn in Hs'.
  pose proof Hs' as (Hh & _ & _).
  destruct connected; cbn [negb]; [|by apply count_error_sound].
  destruct operation as [result| |]; cbn [fst].
  - apply set_health_sound; [by apply count_operation_sound|].
    apply health_up; [done|lra].
  - apply reconnect_sound, set_health_sound;
      [by apply count_error_sound, count_operation_sound|].
    apply health_down; [done|lra].
  - apply set_health_sound;
      [by apply count_error_sound, count_operation_sound|].
    apply health_down; [done|lra].
Qed.

Lemma close_sound (s : DatabaseService) : sound s -> sound (close s).
Proof.
  intros (Hh & Ha & Hc). unfold sound. cbn.
  split; [lra|]. split; [done|]. split; discriminate.
Qed.

Lemma new_service_sound (outcome : ConnectOutcome) :
  sound (new_service outcome).
Proof.
  destruct outcome as [|why]; unfold sound; cbn.
  - split; [lra|]. split; [lia|done].
  - split; [lra|]. split; [lia|]. split; discriminate.
Qed.

Lemma call_sound (s : DatabaseService) (c : Call) :
  sound s -> sound (call s c).
Proof.
  intros Hs. destruct c; cbn [call].
  - by apply is_connected_sound.
  - by apply execute_operation_sound.
  - by apply close_sound.
Qed.

Lemma reconnect_max (s : DatabaseService) (outcome : ConnectOutcome) :
  _max_reconnect_attempts (_reconnect s outcome).1
  = _max_reconnect_attempts s.
Proof.
  unfold _reconnect. destruct (_ <=? _)%Z; [done|]. by destruct outcome.
Qed.

Lemma is_connected_max (s : DatabaseService) (ping : PingOutcome)
    (reconnect : ConnectOutcome) :
  _max_reconnect_attempts (is_connected s ping reconnect).1
  = _max_reconnect_attempts s.
Proof.
  unfold is_connected. destruct (_ || _); [done|].
  destruct ping; [done| |done].
  destruct (Qle_bool _ _); [|done]. by rewrite reconnect_max.
Qed.

Lemma execute_operation_max {R} (s : DatabaseService) (ping : PingOutcome)
    (reconnect : ConnectOutcome) (operation : OpOutcome R)
    (reconnect_after : ConnectOutcome) :
  _max_reconnect_attempts
    (_execute_operation s ping reconnect operation reconnect_after).1
  = _max_reconnect_attempts s.
Proof.
  unfold _execute_operation.
  pose proof (is_connected_max s ping reconnect) as H.
  destruct (is_connected s ping reconnect) as [s' connected]. cbn in H.
  destruct connected; cbn [negb]; [|done].
  destruct operation as [result| |]; cbn [fst]; [done| |done].
  by rewrite reconnect_max.
Qed.

Lemma call_max (s : DatabaseService) (c : Call) :
  _max_reconnect_attempts (call s c) = _max_reconnect_attempts s.
Proof.
  destruct c; cbn [call].
  - apply is_connected_max.
  - apply execute_operation_max.
  - done.
Qed.

(** X25. Whatever the driver does, after any sequence of calls on a new
  service the health score is in [[0, 1]], the reconnection attempts are
  between 0 and the budget of 3, and the client is set exactly when the
  state is ["connected"]. *)
Theorem service_stays_sound (outcome : ConnectOutcome) (calls : list Call) :
  let s := fold_left call calls (new_service outcome) in
  0 <= _connection_health_score s <= 1
  /\ (0 <= _reconnect_attempts s <= 3)%Z
  /\ (client s = true <-> _connection_state s = StateConnected).
Proof.
  intros s.
  assert (H : sound s /\ _max_reconnect_attempts s = 3%Z).
  { subst s. generalize (new_service_sound outcome).
    assert (Hmax : _max_reconnect_attempts (new_service outcome) = 3%Z)
      by (by destruct outcome).
    revert Hmax. generalize (new_service outcome) as s.
    induction calls as [|c calls IH]; intros s Hmax Hs; [done|].
    cbn [fold_left]. apply IH; [|by apply call_sound].
    by rewrite call_max. }
  destruct H as [(Hh & Ha & Hc) Hmax]. rewrite Hmax in Ha. done.
Qed.

End DatabaseLaws.

Module DatabaseOutage.

Import Database DatabaseLaws.
Local Open Scope Z_scope.

Lemma is_connected_without_client (s : DatabaseService) (ping : PingOutcome)
    (reconnect : ConnectOutcome) :
  client s = false -> is_connected s ping reconnect = (s, false).
Proof. intros H. unfold is_connected. by rewrite H. Qed.

Lemma execute_operation_without_client {R} (s : DatabaseService)
    (ping : PingOutcome) (reconnect : ConnectOutcome)
    (operation : OpOutcome R) (reconnect_after : ConnectOutcome) :
  client s = false ->
  _execute_operation s ping reconnect operation reconnect_after
  = (count_error s, None).
Proof.
  intros H. unfold _execute_operation.
  by rewrite is_connected_without_client.
Qed.

Lemma call_without_client (s : DatabaseService) (c : Call) :
  client s = false -> client (call s c) = false.
Proof.
  intros H. destruct c; cbn [call].
  - by rewrite is_connected_without_client.
  - by rewrite execute_operation_without_client.
  - done.
Qed.

(** X26. A service without a client never gets one back: after a failed
  connection or a [close], and whatever calls follow and whatever the
  driver would do, [is_connected] answers [False], no operation is run
  ([_execute_operation] returns [None]; [update_tag_tier] returns
  [False] and [get_tags_for_rebalancing] the empty list), and no
  reconnection is attempted. *)
Theorem service_never_recovers (s : DatabaseService) (calls : list Call)
    (ping : PingOutcome) (reconnect reconnect_after : ConnectOutcome) :
  client s = false ->
  let s' := fold_left call calls s in
  client s' = false
  /\ _reconnect_attempts s' = _reconnect_attempts s
  /\ (is_connected s' ping reconnect).2 = false
  /\ (forall operation : OpOutcome bool,
        (update_tag_tier s' ping reconnect operation reconnect_after).2
        = false)
  /\ (forall operation : OpOutcome (list Tiering.TagRecord),
        (get_tags_for_rebalancing s' ping reconnect operation
           reconnect_after).2
        = []).
Proof.
  intros Hs s'.
  assert (H : client s' = false
              /\ _reconnect_attempts s' = _reconnect_attempts s).
  { subst s'. revert s Hs. induction calls as [|c calls IH]; intros s Hs;
      [done|].
    cbn [fold_left].
    destruct (IH (call s c) (call_without_client s c Hs)) as [Hc Ha].
    split; [done|]. rewrite Ha.
    destruct c; cbn [call].
    - by rewrite is_connected_without_client.
    - by rewrite execute_operation_without_client.
    - done. }
  destruct H as [Hc Ha].
  split; [done|]. split; [done|]. split; [|split].
  - by rewrite is_connected_without_client.
  - intros operation. unfold update_tag_tier.
    by rewrite execute_operation_without_client.
  - intros operation. unfold get_tags_for_rebalancing.
    by rewrite execute_operation_without_client.
Qed.

Lemma service_never_recovers_witness :
  let s' :=
    fold_left call [CallIsConnected PingOk ConnectOk]
      (new_service (ConnectFails ServerUnreachable)) in
  client s' = false
  /\ _reconnect_attempts s'
     = _reconnect_attempts (new_service (ConnectFails ServerUnreachable))
  /\ (is_connected s' PingOk ConnectOk).2 = false
  /\ (forall operation : OpOutcome bool,
        (update_tag_tier s' PingOk ConnectOk operation ConnectOk).2 = false)
  /\ (forall operation : OpOutcome (list Tiering.TagRecord),
        (get_tags_for_rebalancing s' PingOk ConnectOk operation ConnectOk).2
        = []).
Proof.
  apply (service_never_recovers (new_service (ConnectFails ServerUnreachable))
           [CallIsConnected PingOk ConnectOk] PingOk ConnectOk ConnectOk).
  reflexivity.
Defined.

Lemma reconnect_counts (s : DatabaseService) (outcome : ConnectOutcome) :
  _error_count (_reconnect s outcome).1 = _error_count s
  /\ _operation_count (_reconnect s outcome).1 = _operation_count s.
Proof.
  unfold _reconnect. destruct (_ <=? _); [done|]. by destruct outcome.
Qed.

Lemma is_connected_counts (s : DatabaseService) (ping : PingOutcome)
    (reconnect : ConnectOutcome) :
  _error_count (is_connected s ping reconnect).1 = _error_count s
  /\ _operation_count (is_connected s ping reconnect).1 = _operation_count s.
Proof.
  unfold is_connected. destruct (_ || _); [done|].
  destruct ping; [done| |done].
  destruct (Qle_bool _ _); [|done].
  split; [rewrite (proj1 (reconnect_counts _ _))
         |rewrite (proj2 (reconnect_counts _ _))]; done.
Qed.

(** X7. [_execute_operation] counts what it does.  The operation is
  started exactly when [is_connected] answers [True].  A call that is
  refused returns [None], adds one to [_error_count] and leaves
  [_operation_count]; a call whose operation is started adds one to
  [_operation_count], and then either returns the result of the
  operation and leaves [_error_count], or returns [None] and adds one to
  [_error_count]. *)
Theorem execute_operation_counts {R} (s : DatabaseService)
    (ping : PingOutcome) (reconnect : ConnectOutcome)
    (operation : OpOutcome R) (reconnect_after : ConnectOutcome) :
  let out := _execute_operation s ping reconnect operation reconnect_after in
  match (is_connected s ping reconnect).2, operation with
  | false, _ =>
      out.2 = None
      /\ _operation_count out.1 = _operation_count s
      /\ _error_count out.1 = _error_count s + 1
  | true, OpReturns result =>
      out.2 = Some result
      /\ _operation_count out.1 = _operation_count s + 1
      /\ _error_count out.1 = _error_count s
  | true, _ =>
      out.2 = None
      /\ _operation_count out.1 = _operation_count s + 1
      /\ _error_count out.1 = _error_count s + 1
  end.
Proof.
  intros out. subst out. unfold _execute_operation.
  destruct (is_connected_counts s ping reconnect) as [He Ho].
  destruct (is_connected s ping reconnect) as [s' connected].
  cbn [fst] in He, Ho.
  destruct connected; cbn [negb snd fst].
  - destruct operation as [result| |]; cbn [snd fst].
    + cbn. by rewrite He, Ho.
    + destruct (reconnect_counts
                  (set_health (count_error (count_operation s'))
                     (Py.max 0.0
                        (_connection_health_score
                           (count_error (count_operation s')) - 0.2)))
                  reconnect_after) as [-> ->].
      cbn. by rewrite He, Ho.
    + cbn. by rewrite He, Ho.
  - destruct operation; cbn; by rewrite He, Ho.
Qed.

End DatabaseOutage.

(** ** What a write stores, and what the next read sees *)

Module WriteLaws.

Import EdgeLearning PyFacts TopM TopMExamples Pass NeighbourLaws.
Local Open Scope Q_scope.

(** X4. Among neighbours of equal weight a write keeps those that come
  first in the neighbour map: for every weight, the stored neighbours of
  that weight are, in order, a prefix of the neighbours of that weight
  in the map. *)
Theorem upsert_edges_ties (self : Config) (time_time : Z) (db : TagEdges)
    (org_id tag : string) (edges : Neighbours) :
  exists kept : Neighbours,
    (_upsert_edges self time_time db org_id tag edges).1 !! (org_id, tag)
    = Some (edge_of time_time <$> kept)
    /\ forall v : Q, of_weight v kept `prefix_of` of_weight v edges.
Proof.
  exists (slice_to (sorted_desc edges) (max_edges_per_tag self)).
  split; [apply upsert_edges_stored|].
  intros v. rewrite <- (sorted_desc_stable v edges).
  assert (H : forall n, of_weight v (take n (sorted_desc edges))
                        `prefix_of` of_weight v (sorted_desc edges)).
  { intros n. exists (of_weight v (drop n (sorted_desc edges))).
    unfold of_weight. by rewrite <- List.filter_app, take_drop. }
  unfold slice_to. destruct (0 <=? max_edges_per_tag self)%Z; apply H.
Qed.

Lemma dict_get_elem (edges : Neighbours) (key : string) (value default : Q) :
  NoDup edges.*1 -> (key, value) ∈ edges ->
  dict_get edges key default = value.
Proof.
  induction edges as [|[k v] edges IH]; intros Hnd Hin;
    [by apply elem_of_nil in Hin|].
  apply NoDup_cons in Hnd as [Hk Hnd]. cbn [dict_get].
  destruct (String.eqb_spec k key) as [->|Hne].
  - apply elem_of_cons in Hin as [[= ->]|Hin]; [done|].
    destruct Hk. apply list_elem_of_fmap. by exists (key, value).
  - apply elem_of_cons in Hin as [[= -> ->]|Hin]; [done|]. by apply IH.
Qed.

(** X6. Read your write: after one direction of a pair has been
  updated, and provided the neighbours of the source tag fit in
  [maxEdgesPerTag], the next read of the source tag finds the updated
  weight for the target tag, which is the weight the next event starts
  from. *)
Theorem update_direction_read_back (self : Config) (time_time : Z)
    (db : TagEdges) (org src dst : string) (accepted : bool) (default : Q) :
  let current_edges := _get_current_edges db org src in
  let new_weight :=
    _update_edge_weight self (dict_get current_edges dst 0) accepted in
  (Z.of_nat (length (dict_set current_edges dst new_weight))
   <= max_edges_per_tag self)%Z ->
  dict_get
    (_get_current_edges
       (update_direction self time_time db org src dst accepted) org src)
    dst default
  = new_weight.
Proof.
  intros current_edges new_weight Hfit. unfold update_direction.
  fold current_edges. fold new_weight.
  assert (Hnd : NoDup (dict_set current_edges dst new_weight).*1)
    by apply dict_set_NoDup, get_current_edges_NoDup.
  rewrite read_after_upsert by done.
  rewrite slice_to_all by (by rewrite sorted_desc_length).
  apply dict_get_elem.
  - by rewrite sorted_desc_Permutation.
  - apply elem_of_sorted_desc, dict_set_elem.
Qed.

Lemma update_direction_read_back_witness :
  dict_get
    (_get_current_edges
       (update_direction test_config pass_time ∅ "test-org" "python"
          "fastapi" true) "test-org" "python")
    "fastapi" 0
  = _update_edge_weight test_config
      (dict_get (_get_current_edges ∅ "test-org" "python") "fastapi" 0) true.
Proof.
  apply (update_direction_read_back test_config pass_time ∅ "test-org"
           "python" "fastapi" true 0).
  vm_compute. discriminate.
Defined.

End WriteLaws.
